(** * The xterm terminal driver of Tickit (src/termdriver-xterm.c)

    A shallow embedding of the driver and the proofs of its specified
    properties.  Every driver function receives the driver instance, may
    change its mode and capability bits, and appends byte strings to the
    output buffer kept by the core; here such a function is a computation
    of type [Drv A]: it takes the instance and returns a value, the
    instance afterwards, and the strings it has written, in order. *)

From Stdlib Require Import ZArith Bool List String Ascii Lia DecimalString.
From Equations Require Import Equations.
Import ListNotations.

(* the unfolding equations of the two loops are proved without axioms *)
Unset Equations With Funext.

Local Open Scope string_scope.
Local Open Scope Z_scope.

(** ** C [int] arithmetic

    An [int] is a [Z] between [INT_MIN] and [INT_MAX]; the result of an
    operation is brought back into that range by [to_int] (two's
    complement on 32 bits), so the places where the C code could leave
    the range stay visible in the statements. *)

Module Int32.

Definition INT_MAX : Z := 2147483647.
Definition INT_MIN : Z := -2147483648.

Definition in_int (z : Z) : Prop := INT_MIN <= z <= INT_MAX.

Definition to_int (z : Z) : Z := (z + 2147483648) mod 4294967296 - 2147483648.

(* the value of an [int] converted to [unsigned int] *)
Definition to_uint (z : Z) : Z := z mod 4294967296.

Definition add (a b : Z) : Z := to_int (a + b).
Definition sub (a b : Z) : Z := to_int (a - b).
Definition mul (a b : Z) : Z := to_int (a * b).
Definition neg (a : Z) : Z := to_int (- a).

(* [a | m] where [m] is an [unsigned int] constant, stored into an [int] *)
Definition or_u (a m : Z) : Z := to_int (Z.lor (to_uint a) m).
(* [a & m] where [m] is a non-negative [int] constant *)
Definition and (a m : Z) : Z := Z.land a m.

End Int32.

Notation "a +i b" := (Int32.add a b) (at level 50, left associativity).
Notation "a -i b" := (Int32.sub a b) (at level 50, left associativity).
Notation "a *i b" := (Int32.mul a b) (at level 40, left associativity).
Notation "-i a" := (Int32.neg a) (at level 35, right associativity).

(** ** Byte strings *)

(* the escape character, written \e in the C source *)
Definition ESC : string := String (ascii_of_nat 27) EmptyString.

(* printf's %d *)
Definition fmt_d (z : Z) : string := NilZero.string_of_int (Z.to_int z).

Fixpoint replicate (n : nat) (c : ascii) : string :=
  match n with
  | O => EmptyString
  | S n' => String c (replicate n' c)
  end.

(* all the bytes written, as one string *)
Definition bytes_of (writes : list string) : string := String.concat "" writes.

(** ** The pen (rendering attributes)

    The pen lives in the core (pen.c); the driver only reads it through
    the accessors below. *)

Inductive TickitPenAttr : Type :=
| TICKIT_PEN_FG
| TICKIT_PEN_BG
| TICKIT_PEN_BOLD
| TICKIT_PEN_UNDER
| TICKIT_PEN_ITALIC
| TICKIT_PEN_REVERSE
| TICKIT_PEN_STRIKE
| TICKIT_PEN_ALTFONT.

(* the attributes in the order of the enumeration, as the loop of chpen
   visits them: attr = 0 .. TICKIT_N_PEN_ATTRS-1 *)
Definition pen_attrs : list TickitPenAttr :=
  [TICKIT_PEN_FG; TICKIT_PEN_BG; TICKIT_PEN_BOLD; TICKIT_PEN_UNDER;
   TICKIT_PEN_ITALIC; TICKIT_PEN_REVERSE; TICKIT_PEN_STRIKE; TICKIT_PEN_ALTFONT].

(** Modelled from the spec: the pen type and its accessors
    (tickit_pen_has_attr, tickit_pen_get_colour_attr,
    tickit_pen_get_int_attr, tickit_pen_get_bool_attr,
    tickit_pen_is_nondefault) are declared in tickit.h and defined in the
    core, not in the driver.  A pen holds, for each attribute kind it
    sets, the new value: for a colour "default" (a negative value) or an
    index, for the alternate font "default" (a negative value) or an
    index, for the boolean kinds on or off. *)
Record TickitPen : Type := {
  pen_fg : option Z;
  pen_bg : option Z;
  pen_bold : option bool;
  pen_under : option bool;
  pen_italic : option bool;
  pen_reverse : option bool;
  pen_strike : option bool;
  pen_altfont : option Z
}.

Definition is_some {A} (o : option A) : bool :=
  match o with Some _ => true | None => false end.

Definition tickit_pen_has_attr (pen : TickitPen) (attr : TickitPenAttr) : bool :=
  match attr with
  | TICKIT_PEN_FG => is_some (pen_fg pen)
  | TICKIT_PEN_BG => is_some (pen_bg pen)
  | TICKIT_PEN_BOLD => is_some (pen_bold pen)
  | TICKIT_PEN_UNDER => is_some (pen_under pen)
  | TICKIT_PEN_ITALIC => is_some (pen_italic pen)
  | TICKIT_PEN_REVERSE => is_some (pen_reverse pen)
  | TICKIT_PEN_STRIKE => is_some (pen_strike pen)
  | TICKIT_PEN_ALTFONT => is_some (pen_altfont pen)
  end.

Definition tickit_pen_get_colour_attr (pen : TickitPen) (attr : TickitPenAttr) : Z :=
  match attr with
  | TICKIT_PEN_FG => match pen_fg pen with Some v => v | None => -1 end
  | TICKIT_PEN_BG => match pen_bg pen with Some v => v | None => -1 end
  | _ => -1
  end.

Definition tickit_pen_get_int_attr (pen : TickitPen) (attr : TickitPenAttr) : Z :=
  match attr with
  | TICKIT_PEN_ALTFONT => match pen_altfont pen with Some v => v | None => -1 end
  | _ => -1
  end.

Definition tickit_pen_get_bool_attr (pen : TickitPen) (attr : TickitPenAttr) : bool :=
  let get o := match o with Some b => b | None => false end in
  match attr with
  | TICKIT_PEN_BOLD => get (pen_bold pen)
  | TICKIT_PEN_UNDER => get (pen_under pen)
  | TICKIT_PEN_ITALIC => get (pen_italic pen)
  | TICKIT_PEN_REVERSE => get (pen_reverse pen)
  | TICKIT_PEN_STRIKE => get (pen_strike pen)
  | _ => false
  end.

(* whether the attribute is set to something else than its default *)
Definition tickit_pen_nondefault_attr (pen : TickitPen) (attr : TickitPenAttr) : bool :=
  match attr with
  | TICKIT_PEN_FG | TICKIT_PEN_BG => 0 <=? tickit_pen_get_colour_attr pen attr
  | TICKIT_PEN_ALTFONT => 0 <=? tickit_pen_get_int_attr pen attr
  | _ => tickit_pen_get_bool_attr pen attr
  end.

Definition tickit_pen_is_nondefault (pen : TickitPen) : bool :=
  existsb (fun attr => tickit_pen_has_attr pen attr && tickit_pen_nondefault_attr pen attr)
          pen_attrs.

Definition empty_pen : TickitPen :=
  {| pen_fg := None; pen_bg := None; pen_bold := None; pen_under := None;
     pen_italic := None; pen_reverse := None; pen_strike := None;
     pen_altfont := None |}.

(** ** Controls and key events *)

(* the control identifiers of tickit.h that the driver names; every other
   identifier is [TICKIT_TERMCTL_other] and takes the default branch *)
Inductive TickitTermCtl : Type :=
| TICKIT_TERMCTL_ALTSCREEN
| TICKIT_TERMCTL_CURSORVIS
| TICKIT_TERMCTL_MOUSE
| TICKIT_TERMCTL_CURSORBLINK
| TICKIT_TERMCTL_CURSORSHAPE
| TICKIT_TERMCTL_ICON_TEXT
| TICKIT_TERMCTL_TITLE_TEXT
| TICKIT_TERMCTL_ICONTITLE_TEXT
| TICKIT_TERMCTL_KEYPAD_APP
| TICKIT_TERMCTL_other (id : Z).

Inductive TermKeyType : Type :=
| TERMKEY_TYPE_UNICODE
| TERMKEY_TYPE_FUNCTION
| TERMKEY_TYPE_KEYSYM
| TERMKEY_TYPE_MOUSE
| TERMKEY_TYPE_POSITION
| TERMKEY_TYPE_MODEREPORT
| TERMKEY_TYPE_UNKNOWN_CSI.

(* a decoded key event; for a mode report, what
   termkey_interpret_modereport extracts from it *)
Record TermKeyKey : Type := {
  key_type : TermKeyType;
  report_initial : Z;
  report_mode : Z;
  report_value : Z
}.

(** ** The driver instance *)

(* what the driver reads of the terminal object kept by the core *)
Record TickitTerm : Type := {
  term_lines : Z;
  term_cols : Z;
  current_pen : TickitPen
}.

Record Mode : Type := {
  altscreen : bool;
  cursorvis : bool;
  cursorblink : bool;
  mouse : bool;
  keypad : bool
}.

Record Cap : Type := {
  bce : bool;
  slrm : bool
}.

Record XTermDriver : Type := {
  driver_tt : TickitTerm;
  mode : Mode;
  cap : Cap
}.

Definition set_altscreen (b : bool) (xd : XTermDriver) : XTermDriver :=
  {| driver_tt := driver_tt xd;
     mode := {| altscreen := b; cursorvis := cursorvis (mode xd);
                cursorblink := cursorblink (mode xd); mouse := mouse (mode xd);
                keypad := keypad (mode xd) |};
     cap := cap xd |}.

Definition set_cursorvis (b : bool) (xd : XTermDriver) : XTermDriver :=
  {| driver_tt := driver_tt xd;
     mode := {| altscreen := altscreen (mode xd); cursorvis := b;
                cursorblink := cursorblink (mode xd); mouse := mouse (mode xd);
                keypad := keypad (mode xd) |};
     cap := cap xd |}.

Definition set_cursorblink (b : bool) (xd : XTermDriver) : XTermDriver :=
  {| driver_tt := driver_tt xd;
     mode := {| altscreen := altscreen (mode xd); cursorvis := cursorvis (mode xd);
                cursorblink := b; mouse := mouse (mode xd);
                keypad := keypad (mode xd) |};
     cap := cap xd |}.

Definition set_mouse (b : bool) (xd : XTermDriver) : XTermDriver :=
  {| driver_tt := driver_tt xd;
     mode := {| altscreen := altscreen (mode xd); cursorvis := cursorvis (mode xd);
                cursorblink := cursorblink (mode xd); mouse := b;
                keypad := keypad (mode xd) |};
     cap := cap xd |}.

Definition set_slrm (b : bool) (xd : XTermDriver) : XTermDriver :=
  {| driver_tt := driver_tt xd;
     mode := mode xd;
     cap := {| bce := bce (cap xd); slrm := b |} |}.

(** ** Driver computations *)

Record Res (A : Type) : Type := mkRes {
  val : A;            (* the value returned *)
  st : XTermDriver;   (* the instance afterwards *)
  out : list string   (* the strings written to the output buffer, in order *)
}.
Arguments mkRes {A} _ _ _.
Arguments val {A} _.
Arguments st {A} _.
Arguments out {A} _.

Definition Drv (A : Type) : Type := XTermDriver -> Res A.

Definition ret {A} (a : A) : Drv A := fun xd => mkRes a xd [].

Definition bind {A B} (m : Drv A) (k : A -> Drv B) : Drv B :=
  fun xd =>
    let r1 := m xd in
    let r2 := k (val r1) (st r1) in
    mkRes (val r2) (st r2) (out r1 ++ out r2)%list.

Notation "x <- m ;; k" := (bind m (fun x => k))
  (at level 61, m at next level, right associativity).
Notation "m ;; k" := (bind m (fun _ => k))
  (at level 61, right associativity).

Definition get : Drv XTermDriver := fun xd => mkRes xd xd [].
Definition modify (f : XTermDriver -> XTermDriver) : Drv unit :=
  fun xd => mkRes tt (f xd) [].
Definition emit (s : string) : Drv unit := fun xd => mkRes tt xd [s].

(* an [if] without [else] *)
Definition when (c : bool) (m : Drv unit) : Drv unit := if c then m else ret tt.

(** Modelled from the spec: tickit_termdrv_write_str and
    tickit_termdrv_write_strf are declared in termdriver.h and defined in
    the core.  write_str appends [len] bytes of [str] to the output
    buffer, and the whole NUL-terminated string when [len] is 0 (the
    calls of setctl_int pass 0 and emit their sequence); write_strf
    appends the formatted string, which is built at each call here. *)
Definition tickit_termdrv_write_str (str : string) (len : Z) : Drv unit :=
  emit (if len =? 0 then str else substring 0 (Z.to_nat len) str).

Definition tickit_termdrv_write_strf (formatted : string) : Drv unit :=
  emit formatted.

(* tickit_term_get_size(ttd->tt, NULL, &term_cols) *)
Definition tickit_term_get_cols : Drv Z :=
  xd <- get ;; ret (term_cols (driver_tt xd)).

(* tickit_termdrv_current_pen(ttd) *)
Definition tickit_termdrv_current_pen : Drv TickitPen :=
  xd <- get ;; ret (current_pen (driver_tt xd)).

(** ** The driver functions, in the order of the source *)

Definition print (str : string) : Drv unit :=
  tickit_termdrv_write_str str (Z.of_nat (String.length str)).

Definition goto_abs (line col : Z) : Drv unit :=
  if negb (line =? -1) && (col >? 0) then
    tickit_termdrv_write_strf (ESC ++ "[" ++ fmt_d (line +i 1) ++ ";" ++ fmt_d (col +i 1) ++ "H")
  else if negb (line =? -1) && (col =? 0) then
    tickit_termdrv_write_strf (ESC ++ "[" ++ fmt_d (line +i 1) ++ "H")
  else if negb (line =? -1) then
    tickit_termdrv_write_strf (ESC ++ "[" ++ fmt_d (line +i 1) ++ "d")
  else if col >? 0 then
    tickit_termdrv_write_strf (ESC ++ "[" ++ fmt_d (col +i 1) ++ "G")
  else if negb (col =? -1) then
    tickit_termdrv_write_str (ESC ++ "[G") 3
  else ret tt.

Definition move_rel (downward rightward : Z) : Drv unit :=
  (if downward >? 1 then
     tickit_termdrv_write_strf (ESC ++ "[" ++ fmt_d downward ++ "B")
   else if downward =? 1 then
     tickit_termdrv_write_str (ESC ++ "[B") 3
   else if downward =? -1 then
     tickit_termdrv_write_str (ESC ++ "[A") 3
   else if downward <? -1 then
     tickit_termdrv_write_strf (ESC ++ "[" ++ fmt_d (-i downward) ++ "A")
   else ret tt) ;;
  (if rightward >? 1 then
     tickit_termdrv_write_strf (ESC ++ "[" ++ fmt_d rightward ++ "C")
   else if rightward =? 1 then
     tickit_termdrv_write_str (ESC ++ "[C") 3
   else if rightward =? -1 then
     tickit_termdrv_write_str (ESC ++ "[D") 3
   else if rightward <? -1 then
     tickit_termdrv_write_strf (ESC ++ "[" ++ fmt_d (-i rightward) ++ "D")
   else ret tt).

(* a value together with the proof that it is the value of [a]; lets a
   loop remember the outcome of its test *)
Definition inspect {A} (a : A) : {b : A | a = b} := exist _ a eq_refl.

(* for(int i = from; i < bound; i++) body(i);  [i + 1] cannot leave the
   range of int, since [i < bound] *)
Equations? for_lt (body : Z -> Drv unit) (i bound : Z) (xd : XTermDriver) : Res unit
  by wf (Z.to_nat (bound - i)) lt :=
  for_lt body i bound xd with inspect (i <? bound) => {
    | exist _ true _ :=
        let r1 := body i xd in
        let r2 := for_lt body (i + 1) bound (st r1) in
        mkRes tt (st r2) (out r1 ++ out r2)%list;
    | exist _ false _ := ret tt xd }.
Proof. apply Z.ltb_lt in e. lia. Qed.

(* the character insert or delete emitted on each row of the single-axis
   strategy of scrollrect *)
Definition scrollrect_shift_chars (rightward : Z) : Drv unit :=
  if rightward >? 1 then
    tickit_termdrv_write_strf (ESC ++ "[" ++ fmt_d rightward ++ "@")
  else if rightward =? 1 then
    tickit_termdrv_write_str (ESC ++ "[@") 3
  else if rightward =? -1 then
    tickit_termdrv_write_str (ESC ++ "[P") 3
  else if rightward <? -1 then
    tickit_termdrv_write_strf (ESC ++ "[" ++ fmt_d (-i rightward) ++ "P")
  else ret tt.

(* the body of the for loop of the single-axis strategy, for the row
   [line]; the restoring of the margins is inside the braces of the loop
   in the source *)
Definition scrollrect_row (left cols rightward term_cols line : Z) : Drv unit :=
  goto_abs line left ;;
  scrollrect_shift_chars rightward ;;
  when (left +i cols <? term_cols)
    (tickit_termdrv_write_strf (ESC ++ "[s")).

Definition scrollrect (top left lines cols downward rightward : Z) : Drv Z :=
  xd <- get ;;
  if (downward =? 0) && (rightward =? 0) then ret 1
  else
    term_cols <- tickit_term_get_cols ;;
    (* Use DECSLRM only for 1 line of insert/delete *)
    if ((slrm (cap xd) && (lines =? 1)) || (left +i cols =? term_cols))
       && (downward =? 0) then
      when (left +i cols <? term_cols)
        (tickit_termdrv_write_strf (ESC ++ "[;" ++ fmt_d (left +i cols) ++ "s")) ;;
      for_lt (scrollrect_row left cols rightward term_cols) top (top +i lines) ;;
      ret 1
    else if slrm (cap xd) ||
            ((left =? 0) && (cols =? term_cols) && (rightward =? 0)) then
      tickit_termdrv_write_strf
        (ESC ++ "[" ++ fmt_d (top +i 1) ++ ";" ++ fmt_d (top +i lines) ++ "r") ;;
      when ((left >? 0) || (left +i cols <? term_cols))
        (tickit_termdrv_write_strf
           (ESC ++ "[" ++ fmt_d (left +i 1) ++ ";" ++ fmt_d (left +i cols) ++ "s")) ;;
      goto_abs top left ;;
      (if downward >? 1 then
         tickit_termdrv_write_strf (ESC ++ "[" ++ fmt_d downward ++ "M")
       else if downward =? 1 then
         tickit_termdrv_write_str (ESC ++ "[M") 3
       else if downward =? -1 then
         tickit_termdrv_write_str (ESC ++ "[L") 3
       else if downward <? -1 then
         tickit_termdrv_write_strf (ESC ++ "[" ++ fmt_d (-i downward) ++ "L")
       else ret tt) ;;
      (if rightward >? 1 then
         tickit_termdrv_write_strf (ESC ++ "[" ++ fmt_d rightward ++ "'~")
       else if rightward =? 1 then
         tickit_termdrv_write_str (ESC ++ "['~") 4
       else if rightward =? -1 then
         tickit_termdrv_write_str (ESC ++ "['}") 4
       else ret tt) ;;
      when (rightward <? -1)
        (tickit_termdrv_write_strf (ESC ++ "[" ++ fmt_d (-i rightward) ++ "'}")) ;;
      tickit_termdrv_write_str (ESC ++ "[r") 3 ;;
      when ((left >? 0) || (left +i cols <? term_cols))
        (tickit_termdrv_write_str (ESC ++ "[s") 3) ;;
      ret 1
    else ret 0.

(* while(count > 64) { write_str(spaces, 64); count -= 64; }  gives the
   count left after the loop; [count - 64] cannot leave the range of int,
   since [count > 64] *)
Equations? erasech_fill (spaces : string) (count : Z) (xd : XTermDriver) : Res Z
  by wf (Z.to_nat count) lt :=
  erasech_fill spaces count xd with inspect (count >? 64) => {
    | exist _ true _ :=
        let r1 := tickit_termdrv_write_str spaces 64 xd in
        let r2 := erasech_fill spaces (count - 64) (st r1) in
        mkRes (val r2) (st r2) (out r1 ++ out r2)%list;
    | exist _ false _ := ret count xd }.
Proof. apply Z.gtb_lt in e. lia. Qed.

Definition erasech (count moveend : Z) : Drv unit :=
  xd <- get ;;
  if count <? 1 then ret tt
  else
    pen <- tickit_termdrv_current_pen ;;
    (* only use ECH if we're not in reverse-video mode *)
    if bce (cap xd) && negb (tickit_pen_get_bool_attr pen TICKIT_PEN_REVERSE) then
      (if count =? 1 then
         tickit_termdrv_write_str (ESC ++ "[X") 3
       else
         tickit_termdrv_write_strf (ESC ++ "[" ++ fmt_d count ++ "X")) ;;
      when (moveend =? 1) (move_rel 0 count)
    else
      let spaces := replicate 64 " "%char in
      count <- erasech_fill spaces count ;;
      tickit_termdrv_write_str spaces count ;;
      when (moveend =? 0) (move_rel 0 (-i count)).

Definition ttd_clear : Drv unit :=
  tickit_termdrv_write_strf (ESC ++ "[2J").

Record SgrOnOff : Type := { on : Z; off : Z }.

Definition sgr_onoff (attr : TickitPenAttr) : SgrOnOff :=
  match attr with
  | TICKIT_PEN_FG      => {| on := 30; off := 39 |}
  | TICKIT_PEN_BG      => {| on := 40; off := 49 |}
  | TICKIT_PEN_BOLD    => {| on :=  1; off := 22 |}
  | TICKIT_PEN_UNDER   => {| on :=  4; off := 24 |}
  | TICKIT_PEN_ITALIC  => {| on :=  3; off := 23 |}
  | TICKIT_PEN_REVERSE => {| on :=  7; off := 27 |}
  | TICKIT_PEN_STRIKE  => {| on :=  9; off := 29 |}
  | TICKIT_PEN_ALTFONT => {| on := 10; off := 10 |}
  end.

(* one turn of the loop of chpen: the parameters appended to params[] for
   [attr] *)
Definition chpen_attr (delta : TickitPen) (attr : TickitPenAttr) : list Z :=
  if negb (tickit_pen_has_attr delta attr) then []
  else
    let onoff := sgr_onoff attr in
    match attr with
    | TICKIT_PEN_FG | TICKIT_PEN_BG =>
        let val := tickit_pen_get_colour_attr delta attr in
        if val <? 0 then [off onoff]
        else if val <? 8 then [on onoff +i val]
        else if val <? 16 then [on onoff +i 60 +i val -i 8]
        else [Int32.or_u (on onoff +i 8) 2147483648 (* 0x80000000 *);
              Int32.or_u 5 2147483648;
              val]
    | TICKIT_PEN_ALTFONT =>
        let val := tickit_pen_get_int_attr delta attr in
        if (val <? 0) || (val >=? 10) then [off onoff]
        else [on onoff +i val]
    | TICKIT_PEN_BOLD | TICKIT_PEN_UNDER | TICKIT_PEN_ITALIC
    | TICKIT_PEN_REVERSE | TICKIT_PEN_STRIKE =>
        let val := tickit_pen_get_bool_attr delta attr in
        [if val then on onoff else off onoff]
    end.

(* params[i]&0x7fffffff printed with %d *)
Definition fmt_param (p : Z) : string := fmt_d (Int32.and p 2147483647).

(* the two sprintf loops: every parameter but the last is followed by ';' *)
Fixpoint chpen_render (params : list Z) : string :=
  match params with
  | [] => ""
  | [p] => fmt_param p
  | p :: rest => fmt_param p ++ ";" ++ chpen_render rest
  end.

Definition chpen (delta final : TickitPen) : Drv unit :=
  let params := flat_map (chpen_attr delta) pen_attrs in
  let pindex := Z.of_nat (List.length params) in
  if pindex =? 0 then ret tt
  else
    (* If we're going to clear all the attributes then empty SGR is neater *)
    let pindex := if negb (tickit_pen_is_nondefault final) then 0 else pindex in
    let used := firstn (Z.to_nat pindex) params in
    let len := 3 + fold_right
                     (fun p acc => Z.of_nat (String.length (fmt_param p)) + 1 + acc)
                     0 used in
    let len := if pindex >? 0 then len - 1 else len in
    let buffer := ESC ++ "[" ++ chpen_render used ++ "m" in
    tickit_termdrv_write_str buffer len.

Definition setctl_int (ctl : TickitTermCtl) (value : Z) : Drv Z :=
  xd <- get ;;
  match ctl with
  | TICKIT_TERMCTL_ALTSCREEN =>
      if Bool.eqb (negb (altscreen (mode xd))) (value =? 0) then ret 1
      else
        tickit_termdrv_write_str
          (if negb (value =? 0) then ESC ++ "[?1049h" else ESC ++ "[?1049l") 0 ;;
        modify (set_altscreen (negb (value =? 0))) ;;
        ret 1
  | TICKIT_TERMCTL_CURSORVIS =>
      if Bool.eqb (negb (cursorvis (mode xd))) (value =? 0) then ret 1
      else
        tickit_termdrv_write_str
          (if negb (value =? 0) then ESC ++ "[?25h" else ESC ++ "[?25l") 0 ;;
        modify (set_cursorvis (negb (value =? 0))) ;;
        ret 1
  | TICKIT_TERMCTL_CURSORBLINK =>
      (* We don't actually know whether this was enabled initially, so best
         just to always apply this *)
      tickit_termdrv_write_str
        (if negb (value =? 0) then ESC ++ "[?12h" else ESC ++ "[?12l") 0 ;;
      modify (set_cursorblink (negb (value =? 0))) ;;
      ret 1
  | TICKIT_TERMCTL_MOUSE =>
      if Bool.eqb (negb (mouse (mode xd))) (value =? 0) then ret 1
      else
        tickit_termdrv_write_str
          (if negb (value =? 0) then ESC ++ "[?1002h" ++ ESC ++ "[?1006h"
           else ESC ++ "[?1002l" ++ ESC ++ "[?1006l") 0 ;;
        modify (set_mouse (negb (value =? 0))) ;;
        ret 1
  | TICKIT_TERMCTL_CURSORSHAPE =>
      tickit_termdrv_write_strf
        (ESC ++ "[" ++
         fmt_d (value *i 2 +i (if cursorblink (mode xd) then -1 else 0)) ++ " q") ;;
      ret 1
  | TICKIT_TERMCTL_KEYPAD_APP =>
      if Bool.eqb (negb (keypad (mode xd))) (value =? 0) then ret 1
      else
        tickit_termdrv_write_strf (if negb (value =? 0) then ESC ++ "=" else ESC ++ ">") ;;
        ret 1
  | _ => ret 0
  end.

Definition setctl_str (ctl : TickitTermCtl) (value : string) : Drv Z :=
  match ctl with
  | TICKIT_TERMCTL_ICON_TEXT =>
      tickit_termdrv_write_strf (ESC ++ "]1;" ++ value ++ ESC ++ "\") ;;
      ret 1
  | TICKIT_TERMCTL_TITLE_TEXT =>
      tickit_termdrv_write_strf (ESC ++ "]2;" ++ value ++ ESC ++ "\") ;;
      ret 1
  | TICKIT_TERMCTL_ICONTITLE_TEXT =>
      tickit_termdrv_write_strf (ESC ++ "]0;" ++ value ++ ESC ++ "\") ;;
      ret 1
  | _ => ret 0
  end.

Definition start : Drv unit :=
  (* Enable DECSLRM *)
  tickit_termdrv_write_strf (ESC ++ "[?69h") ;;
  (* Find out if DECSLRM is actually supported *)
  tickit_termdrv_write_strf (ESC ++ "[?69$p").

Definition is_modereport (t : TermKeyType) : bool :=
  match t with TERMKEY_TYPE_MODEREPORT => true | _ => false end.

(* the character constant '?' *)
Definition QUESTION_MARK : Z := Z.of_nat (nat_of_ascii "?"%char).

Definition gotkey (key : TermKeyKey) : Drv unit :=
  if is_modereport (key_type key) then
    let initial := report_initial key in
    let mode := report_mode key in
    let value := report_value key in
    if initial =? QUESTION_MARK (* DEC mode *) then
      if mode =? 69 (* DECVSSM *) then
        when ((value =? 1) || (value =? 2)) (modify (set_slrm true))
      else ret tt
    else ret tt
  else ret tt.

Definition stop : Drv unit :=
  xd <- get ;;
  when (mouse (mode xd))
    (setctl_int TICKIT_TERMCTL_MOUSE 0 ;; ret tt) ;;
  xd <- get ;;
  when (negb (cursorvis (mode xd)))
    (setctl_int TICKIT_TERMCTL_CURSORVIS 1 ;; ret tt) ;;
  xd <- get ;;
  when (altscreen (mode xd))
    (setctl_int TICKIT_TERMCTL_ALTSCREEN 0 ;; ret tt) ;;
  xd <- get ;;
  when (keypad (mode xd))
    (setctl_int TICKIT_TERMCTL_KEYPAD_APP 0 ;; ret tt).

(* what the capability database (unibilium or terminfo) knows of a
   terminal type *)
Record TermInfo : Type := {
  ti_back_color_erase : bool;
  ti_lines : Z;
  ti_columns : Z
}.

(* tickit_term_set_size(tt, lines, cols) *)
Definition tickit_term_set_size (tt : TickitTerm) (lines cols : Z) : TickitTerm :=
  {| term_lines := lines; term_cols := cols; current_pen := current_pen tt |}.

(* new(tt, termtype): [lookup] is what the capability database returns
   for [termtype], if it knows it.  The instance comes from malloc and
   new assigns neither mode.cursorblink nor mode.keypad: these two bits
   start with whatever the memory held, [uninit_cursorblink] and
   [uninit_keypad]. *)
Definition new (tt : TickitTerm) (lookup : option TermInfo)
    (uninit_cursorblink uninit_keypad : bool) : XTermDriver :=
  let mode0 := {| altscreen := false; cursorvis := true;
                  cursorblink := uninit_cursorblink; mouse := false;
                  keypad := uninit_keypad |} in
  match lookup with
  | Some ti =>
      {| driver_tt := tickit_term_set_size tt (ti_lines ti) (ti_columns ti);
         mode := mode0;
         cap := {| bce := ti_back_color_erase ti; slrm := false |} |}
  | None =>
      {| driver_tt := tt;
         mode := mode0;
         cap := {| bce := true; slrm := false |} |}
  end.

(** ** Sessions

    The calls the core makes through the driver's vtable between the
    construction of an instance and its destruction. *)

Inductive Call : Type :=
| call_start
| call_stop
| call_print (str : string)
| call_goto_abs (line col : Z)
| call_move_rel (downward rightward : Z)
| call_scrollrect (top left lines cols downward rightward : Z)
| call_erasech (count moveend : Z)
| call_clear
| call_chpen (delta final : TickitPen)
| call_setctl_int (ctl : TickitTermCtl) (value : Z)
| call_setctl_str (ctl : TickitTermCtl) (value : string)
| call_gotkey (key : TermKeyKey).

Definition exec (c : Call) : Drv unit :=
  match c with
  | call_start => start
  | call_stop => stop
  | call_print str => print str
  | call_goto_abs line col => goto_abs line col
  | call_move_rel downward rightward => move_rel downward rightward
  | call_scrollrect top left_ lines cols downward rightward =>
      scrollrect top left_ lines cols downward rightward ;; ret tt
  | call_erasech count moveend => erasech count moveend
  | call_clear => ttd_clear
  | call_chpen delta final => chpen delta final
  | call_setctl_int ctl value => setctl_int ctl value ;; ret tt
  | call_setctl_str ctl value => setctl_str ctl value ;; ret tt
  | call_gotkey key => gotkey key
  end.

Fixpoint session (calls : list Call) : Drv unit :=
  match calls with
  | [] => ret tt
  | c :: rest => exec c ;; session rest
  end.

(** * Definitions used in the statements

    The wire table of goto_abs as the specification gives it: a
    coordinate is unspecified (the sentinel -1) or a value, and the table
    has one row for each combination.  Then the predicates, the events
    and the example instances that the theorems below name. *)

Definition coord (c : Z) : option Z := if c =? -1 then None else Some c.

(* the rows "absolute move" of the table of wire-level sequence forms *)
Definition goto_abs_table (line col : option Z) : list string :=
  match line, col with
  | Some l, Some c =>
      if c =? 0 then [ESC ++ "[" ++ fmt_d (l + 1) ++ "H"]
      else [ESC ++ "[" ++ fmt_d (l + 1) ++ ";" ++ fmt_d (c + 1) ++ "H"]
  | Some l, None => [ESC ++ "[" ++ fmt_d (l + 1) ++ "d"]
  | None, Some c =>
      if c =? 0 then [ESC ++ "[G"]
      else [ESC ++ "[" ++ fmt_d (c + 1) ++ "G"]
  | None, None => []
  end.

(* a coordinate the caller may pass: unspecified, or a non-negative int
   whose successor, which goto_abs computes, is an int too *)
Definition coordinate (c : Z) : Prop := c = -1 \/ 0 <= c < Int32.INT_MAX.

(* [m] leaves the driver instance as it found it *)
Definition writes_only {A} (m : Drv A) : Prop := forall xd, st (m xd) = xd.

(* the instance used in the examples: a terminal type the capability
   database does not know, the two unassigned mode bits clear *)
Definition example_tt : TickitTerm :=
  {| term_lines := 25; term_cols := 80; current_pen := empty_pen |}.

Definition example_xd : XTermDriver := new example_tt None false false.

(* setctl_int(ctl, value) called twice in a row *)
Definition setctl_int_twice (ctl : TickitTermCtl) (value : Z) : Drv (Z * Z) :=
  r1 <- setctl_int ctl value ;;
  r2 <- setctl_int ctl value ;;
  ret (r1, r2).

(* the instance after the alternate screen has been entered *)
Definition example_xd_altscreen : XTermDriver :=
  st (setctl_int TICKIT_TERMCTL_ALTSCREEN 1 example_xd).

(* the bit a deduplicated control keeps *)
Definition mode_bit (ctl : TickitTermCtl) (xd : XTermDriver) : bool :=
  match ctl with
  | TICKIT_TERMCTL_ALTSCREEN => altscreen (mode xd)
  | TICKIT_TERMCTL_CURSORVIS => cursorvis (mode xd)
  | TICKIT_TERMCTL_MOUSE => mouse (mode xd)
  | TICKIT_TERMCTL_KEYPAD_APP => keypad (mode xd)
  | _ => false
  end.

(* [m] leaves the capability bits as it found them *)
Definition keeps_cap {A} (m : Drv A) : Prop := forall xd, cap (st (m xd)) = cap xd.

(* the event that confirms the margins: a mode report with the DEC-mode
   indicator '?', mode 69 and status 1 or 2 *)
Definition mode_report_confirms (key : TermKeyKey) : bool :=
  is_modereport (key_type key) &&
  (report_initial key =? QUESTION_MARK) &&
  (report_mode key =? 69) &&
  ((report_value key =? 1) || (report_value key =? 2)).

Definition confirms_margins (c : Call) : bool :=
  match c with
  | call_gotkey key => mode_report_confirms key
  | _ => false
  end.

(* the bottom and right edges of the rectangle are ints *)
Definition rect_in_int (top left lines cols : Z) : Prop :=
  Int32.in_int (top + lines) /\ Int32.in_int (left + cols).

(* the last byte of a string *)
Fixpoint last_char (s : string) : option ascii :=
  match s with
  | EmptyString => None
  | String c rest =>
      match last_char rest with
      | Some d => Some d
      | None => Some c
      end
  end.

Definition example_delta : TickitPen :=
  {| pen_fg := Some (-1); pen_bg := None; pen_bold := None; pen_under := None;
     pen_italic := None; pen_reverse := None; pen_strike := None;
     pen_altfont := None |}.

(* an instance on a terminal without background-colour erase *)
Definition example_xd_nobce : XTermDriver :=
  new example_tt
      (Some {| ti_back_color_erase := false; ti_lines := 25; ti_columns := 80 |})
      false false.

(** * Definitions used in the further properties *)

(* the rows start, start+1, ..., start+n-1 *)
Fixpoint zrange (start : Z) (n : nat) : list Z :=
  match n with
  | O => []
  | S n' => start :: zrange (start + 1) n'
  end.

(* the line delete or insert of the table of wire-level sequence forms,
   for a downward displacement *)
Definition line_shift_seq (downward : Z) : list string :=
  if downward =? 0 then []
  else if downward =? 1 then [ESC ++ "[M"]
  else if downward =? -1 then [ESC ++ "[L"]
  else if 0 <? downward then [ESC ++ "[" ++ fmt_d downward ++ "M"]
  else [ESC ++ "[" ++ fmt_d (- downward) ++ "L"].

(* the column shift in margin mode of the same table, for a rightward
   displacement *)
Definition col_shift_seq (rightward : Z) : list string :=
  if rightward =? 0 then []
  else if rightward =? 1 then [ESC ++ "['~"]
  else if rightward =? -1 then [ESC ++ "['}"]
  else if 0 <? rightward then [ESC ++ "[" ++ fmt_d rightward ++ "'~"]
  else [ESC ++ "[" ++ fmt_d (- rightward) ++ "'}"].

(* every sum and negation that scrollrect computes for this request is an
   int *)
Definition scroll_in_int (top left lines cols downward rightward : Z) : Prop :=
  Int32.in_int (top + 1) /\ Int32.in_int (top + lines) /\
  Int32.in_int (left + 1) /\ Int32.in_int (left + cols) /\
  Int32.in_int (- downward) /\ Int32.in_int (- rightward).

(* "set scroll region" and "set margins" of the same table *)
Definition seq_scroll_region (first last : Z) : string :=
  ESC ++ "[" ++ fmt_d first ++ ";" ++ fmt_d last ++ "r".

Definition seq_margins (first last : Z) : string :=
  ESC ++ "[" ++ fmt_d first ++ ";" ++ fmt_d last ++ "s".

(* "hardware erase" of the same table *)
Definition seq_erase_chars (count : Z) : string :=
  if count =? 1 then ESC ++ "[X" else ESC ++ "[" ++ fmt_d count ++ "X".

(* a terminal whose current pen is in reverse video *)
Definition reverse_pen_tt : TickitTerm :=
  {| term_lines := 25; term_cols := 80;
     current_pen :=
       {| pen_fg := None; pen_bg := None; pen_bold := None; pen_under := None;
          pen_italic := None; pen_reverse := Some true; pen_strike := None;
          pen_altfont := None |} |}.

(* the parameters of a colour in the attribute-set command: the off code
   for the default colour, on+index for the 8 basic colours, on+60+(index-8)
   for the 8 bright ones, and on+8;5;index for the others *)
Definition sgr_colour (on_code off_code val : Z) : string :=
  if val <? 0 then fmt_d off_code
  else if val <? 8 then fmt_d (on_code + val)
  else if val <? 16 then fmt_d (on_code + 60 + (val - 8))
  else fmt_d (on_code + 8) ++ ";5;" ++ fmt_d val.

(* a delta that sets only the foreground, and one that sets only the
   background *)
Definition fg_delta (val : Z) : TickitPen :=
  {| pen_fg := Some val; pen_bg := None; pen_bold := None; pen_under := None;
     pen_italic := None; pen_reverse := None; pen_strike := None;
     pen_altfont := None |}.

Definition bg_delta (val : Z) : TickitPen :=
  {| pen_fg := None; pen_bg := Some val; pen_bold := None; pen_under := None;
     pen_italic := None; pen_reverse := None; pen_strike := None;
     pen_altfont := None |}.

(* a final pen with bold set *)
Definition bold_pen : TickitPen :=
  {| pen_fg := None; pen_bg := None; pen_bold := Some true; pen_under := None;
     pen_italic := None; pen_reverse := None; pen_strike := None;
     pen_altfont := None |}.

(* the instance after setctl_int(ctl, value), as the request reads: the
   bit of the control holds whether value is not 0; the controls without
   a bit of their own change nothing *)
Definition after_setctl_int (ctl : TickitTermCtl) (value : Z) (xd : XTermDriver)
  : XTermDriver :=
  match ctl with
  | TICKIT_TERMCTL_ALTSCREEN => set_altscreen (negb (value =? 0)) xd
  | TICKIT_TERMCTL_CURSORVIS => set_cursorvis (negb (value =? 0)) xd
  | TICKIT_TERMCTL_CURSORBLINK => set_cursorblink (negb (value =? 0)) xd
  | TICKIT_TERMCTL_MOUSE => set_mouse (negb (value =? 0)) xd
  | _ => xd
  end.

(* "cursor blink on/off" of the table of wire-level sequence forms *)
Definition seq_cursorblink (value : Z) : string :=
  if value =? 0 then ESC ++ "[?12l" else ESC ++ "[?12h".

(* the calls that may change the mode bits *)
Definition owns_mode (c : Call) : bool :=
  match c with
  | call_setctl_int _ _ | call_stop => true
  | _ => false
  end.

(* [m] leaves the terminal object as it found it *)
Definition keeps_tt {A} (m : Drv A) : Prop :=
  forall xd, driver_tt (st (m xd)) = driver_tt xd.

(* a mode report that confirms the margins *)
Definition example_report : TermKeyKey :=
  {| key_type := TERMKEY_TYPE_MODEREPORT; report_initial := QUESTION_MARK;
     report_mode := 69; report_value := 1 |}.

(** * Properties *)

(** ** Arithmetic within the range of int *)

Lemma to_int_exact (z : Z) : Int32.in_int z -> Int32.to_int z = z.
Proof.
  unfold Int32.in_int, Int32.INT_MIN, Int32.INT_MAX, Int32.to_int. intros H.
  rewrite Z.mod_small; lia.
Qed.

Lemma to_int_range (z : Z) : Int32.in_int (Int32.to_int z).
Proof.
  unfold Int32.in_int, Int32.INT_MIN, Int32.INT_MAX, Int32.to_int.
  pose proof (Z.mod_pos_bound (z + 2147483648) 4294967296). lia.
Qed.

Lemma add_exact (a b : Z) : Int32.in_int (a + b) -> a +i b = a + b.
Proof. apply to_int_exact. Qed.

Lemma neg_exact (a : Z) : Int32.in_int (- a) -> -i a = - a.
Proof. apply to_int_exact. Qed.

(** ** Computations that only write *)

Lemma writes_only_ret {A} (a : A) : writes_only (ret a).
Proof. intros xd. reflexivity. Qed.

Lemma writes_only_emit (s : string) : writes_only (emit s).
Proof. intros xd. reflexivity. Qed.

Lemma writes_only_get : writes_only get.
Proof. intros xd. reflexivity. Qed.

Lemma writes_only_bind {A B} (m : Drv A) (k : A -> Drv B) :
  writes_only m -> (forall a, writes_only (k a)) -> writes_only (bind m k).
Proof.
  intros Hm Hk xd. unfold bind. simpl. rewrite Hm. apply Hk.
Qed.

Lemma writes_only_when (c : bool) (m : Drv unit) :
  writes_only m -> writes_only (when c m).
Proof. intros Hm. destruct c; [exact Hm | apply writes_only_ret]. Qed.

Lemma writes_only_write_str (s : string) (len : Z) :
  writes_only (tickit_termdrv_write_str s len).
Proof. intros xd. reflexivity. Qed.

Lemma writes_only_write_strf (s : string) :
  writes_only (tickit_termdrv_write_strf s).
Proof. intros xd. reflexivity. Qed.

Create HintDb writes.
#[export] Hint Resolve writes_only_ret writes_only_emit writes_only_get
  writes_only_when writes_only_write_str writes_only_write_strf : writes.

Ltac writes_only_tac :=
  repeat first
    [ apply writes_only_bind; [| intro]
    | apply writes_only_when
    | match goal with |- writes_only (if ?c then _ else _) => destruct c end
    | solve [auto with writes] ].

Lemma writes_only_goto_abs (line col : Z) : writes_only (goto_abs line col).
Proof. unfold goto_abs. writes_only_tac. Qed.

Lemma writes_only_move_rel (downward rightward : Z) :
  writes_only (move_rel downward rightward).
Proof. unfold move_rel. writes_only_tac. Qed.

Lemma writes_only_shift_chars (rightward : Z) :
  writes_only (scrollrect_shift_chars rightward).
Proof. unfold scrollrect_shift_chars. writes_only_tac. Qed.

#[export] Hint Resolve writes_only_goto_abs writes_only_move_rel
  writes_only_shift_chars : writes.

(** ** The loops, unfolded once *)

Lemma for_lt_step (body : Z -> Drv unit) (i bound : Z) (xd : XTermDriver) :
  for_lt body i bound xd =
  if i <? bound then (body i ;; for_lt body (i + 1) bound) xd else ret tt xd.
Proof.
  rewrite for_lt_equation_1.
  destruct (inspect (i <? bound)) as [b E].
  destruct b; simpl; rewrite E.
  - unfold bind. destruct (for_lt body (i + 1) bound (st (body i xd))) as [[] s o]. reflexivity.
  - reflexivity.
Qed.

Lemma erasech_fill_step (spaces : string) (count : Z) (xd : XTermDriver) :
  erasech_fill spaces count xd =
  if count >? 64 then
    (tickit_termdrv_write_str spaces 64 ;; erasech_fill spaces (count - 64)) xd
  else ret count xd.
Proof.
  rewrite erasech_fill_equation_1.
  destruct (inspect (count >? 64)) as [b E].
  destruct b; simpl; rewrite E.
  - unfold bind. destruct (erasech_fill _ _ _). reflexivity.
  - reflexivity.
Qed.

Lemma writes_only_for_lt (body : Z -> Drv unit) (i bound : Z) :
  (forall j, writes_only (body j)) -> writes_only (for_lt body i bound).
Proof.
  intros Hbody xd.
  remember (Z.to_nat (bound - i)) as n eqn:Hn.
  revert i xd Hn. induction n as [|n IH]; intros i xd Hn;
    rewrite for_lt_step; destruct (Z.ltb_spec i bound); try reflexivity; try lia.
  unfold bind. simpl. rewrite Hbody. apply IH. lia.
Qed.

Lemma writes_only_erasech_fill (spaces : string) (count : Z) :
  writes_only (erasech_fill spaces count).
Proof.
  intros xd.
  remember (Z.to_nat count) as n eqn:Hn.
  revert count xd Hn. induction n as [n IH] using lt_wf_ind; intros count xd Hn.
  rewrite erasech_fill_step. destruct (Z.gtb_spec count 64); [| reflexivity].
  unfold bind. simpl. apply (IH (Z.to_nat (count - 64))); lia.
Qed.

(** ** goto_abs *)

(** C6: for every line and column that are each unspecified or a
    non-negative value, goto_abs writes exactly what the wire table gives
    for the pair, and leaves the instance unchanged. *)
Theorem goto_abs_matches_table (line col : Z) (xd : XTermDriver) :
  coordinate line -> coordinate col ->
  goto_abs line col xd = mkRes tt xd (goto_abs_table (coord line) (coord col)).
Proof.
  unfold coordinate, Int32.INT_MAX. intros Hl Hc.
  assert (El : line = -1 \/ line +i 1 = line + 1 /\ 0 <= line).
  { destruct Hl as [-> | Hl]; [left; reflexivity | right].
    split; [apply add_exact; unfold Int32.in_int, Int32.INT_MIN, Int32.INT_MAX |]; lia. }
  assert (Ec : col = -1 \/ col +i 1 = col + 1 /\ 0 <= col).
  { destruct Hc as [-> | Hc]; [left; reflexivity | right].
    split; [apply add_exact; unfold Int32.in_int, Int32.INT_MIN, Int32.INT_MAX |]; lia. }
  unfold goto_abs, coord, goto_abs_table.
  destruct El as [-> | [El Hl0]]; destruct Ec as [-> | [Ec Hc0]]; simpl.
  - reflexivity.
  - rewrite Ec.
    destruct (Z.gtb_spec col 0), (Z.eqb_spec col (-1)), (Z.eqb_spec col 0);
      try lia; reflexivity.
  - rewrite El.
    destruct (Z.eqb_spec line (-1)); try lia; reflexivity.
  - rewrite El, Ec.
    destruct (Z.eqb_spec line (-1)), (Z.gtb_spec col 0), (Z.eqb_spec col (-1)),
      (Z.eqb_spec col 0); try lia; reflexivity.
Qed.

Lemma goto_abs_matches_table_witness :
  goto_abs 4 7 example_xd = mkRes tt example_xd [ESC ++ "[5;8H"].
Proof.
  apply (goto_abs_matches_table 4 7); right; unfold Int32.INT_MAX; lia.
Defined.

(** ** setctl_int and the mode bits *)

(** C10: a new instance holds altscreen=false, cursorvis=true,
    mouse=false and slrm=false, so the first setctl_int(CURSORVIS, 1)
    returns 1 (handled), writes nothing and changes nothing. *)
Theorem new_initial_state_and_first_cursorvis
    (tt : TickitTerm) (lookup : option TermInfo) (b_blink b_keypad : bool) :
  let xd := new tt lookup b_blink b_keypad in
  altscreen (mode xd) = false /\
  cursorvis (mode xd) = true /\
  mouse (mode xd) = false /\
  slrm (cap xd) = false /\
  setctl_int TICKIT_TERMCTL_CURSORVIS 1 xd = mkRes 1 xd [].
Proof.
  destruct lookup; repeat split.
Qed.

(* a second call with the same arguments finds the bit already as
   requested *)
Lemma eqb_negb_after (v : Z) : Bool.eqb (negb (negb (v =? 0))) (v =? 0) = true.
Proof. destruct (v =? 0); reflexivity. Qed.

Lemma setctl_int_altscreen_again (value : Z) (xd : XTermDriver) :
  let xd1 := st (setctl_int TICKIT_TERMCTL_ALTSCREEN value xd) in
  setctl_int TICKIT_TERMCTL_ALTSCREEN value xd1 = mkRes 1 xd1 [].
Proof.
  unfold setctl_int, bind, get. simpl.
  destruct (Bool.eqb (negb (altscreen (mode xd))) (value =? 0)) eqn:E; simpl.
  - rewrite E. reflexivity.
  - rewrite eqb_negb_after. reflexivity.
Qed.

Lemma setctl_int_cursorvis_again (value : Z) (xd : XTermDriver) :
  let xd1 := st (setctl_int TICKIT_TERMCTL_CURSORVIS value xd) in
  setctl_int TICKIT_TERMCTL_CURSORVIS value xd1 = mkRes 1 xd1 [].
Proof.
  unfold setctl_int, bind, get. simpl.
  destruct (Bool.eqb (negb (cursorvis (mode xd))) (value =? 0)) eqn:E; simpl.
  - rewrite E. reflexivity.
  - rewrite eqb_negb_after. reflexivity.
Qed.

Lemma setctl_int_mouse_again (value : Z) (xd : XTermDriver) :
  let xd1 := st (setctl_int TICKIT_TERMCTL_MOUSE value xd) in
  setctl_int TICKIT_TERMCTL_MOUSE value xd1 = mkRes 1 xd1 [].
Proof.
  unfold setctl_int, bind, get. simpl.
  destruct (Bool.eqb (negb (mouse (mode xd))) (value =? 0)) eqn:E; simpl.
  - rewrite E. reflexivity.
  - rewrite eqb_negb_after. reflexivity.
Qed.

(** C8, as stated, fails: on an instance that is already in the alternate
    screen, two calls setctl_int(ALTSCREEN, 1) write nothing at all, so
    the enabling sequence is written zero times, not once. *)
Lemma setctl_int_twice_altscreen_already_on :
  altscreen (mode example_xd_altscreen) = true /\
  out (setctl_int_twice TICKIT_TERMCTL_ALTSCREEN 1 example_xd_altscreen) = [] /\
  count_occ string_dec
    (out (setctl_int_twice TICKIT_TERMCTL_ALTSCREEN 1 example_xd_altscreen))
    (ESC ++ "[?1049h") <> 1%nat.
Proof.
  repeat split. vm_compute. discriminate.
Qed.

(** C8, amended: two consecutive calls setctl_int(ALTSCREEN, 1) write the
    enabling sequence ESC[?1049h once when the altscreen bit was clear and
    nothing when it was set; from every state and for every value, the
    second of two identical requests for the alternate screen, the cursor
    visibility or the mouse returns 1 (handled), writes nothing and
    leaves the instance as the first call left it. *)
Theorem setctl_int_twice_deduplicates (xd : XTermDriver) :
  out (setctl_int_twice TICKIT_TERMCTL_ALTSCREEN 1 xd)
  = (if altscreen (mode xd) then [] else [ESC ++ "[?1049h"]) /\
  (forall value,
     let xd1 := st (setctl_int TICKIT_TERMCTL_ALTSCREEN value xd) in
     setctl_int TICKIT_TERMCTL_ALTSCREEN value xd1 = mkRes 1 xd1 []) /\
  (forall value,
     let xd1 := st (setctl_int TICKIT_TERMCTL_CURSORVIS value xd) in
     setctl_int TICKIT_TERMCTL_CURSORVIS value xd1 = mkRes 1 xd1 []) /\
  (forall value,
     let xd1 := st (setctl_int TICKIT_TERMCTL_MOUSE value xd) in
     setctl_int TICKIT_TERMCTL_MOUSE value xd1 = mkRes 1 xd1 []).
Proof.
  split; [| split; [| split]].
  - destruct xd as [t [a v b m k] c]. destruct a; reflexivity.
  - intros value. apply setctl_int_altscreen_again.
  - intros value. apply setctl_int_cursorvis_again.
  - intros value. apply setctl_int_mouse_again.
Qed.

(** C2 fails for the keypad control: setctl_int(KEYPAD_APP, 1) writes the
    sequence ESC= and leaves the keypad bit clear, so the bit does not
    hold the value of the sequence last written, and the same request
    writes the sequence again. *)
Theorem setctl_int_keypad_bit_not_updated :
  keypad (mode example_xd) = false /\
  out (setctl_int TICKIT_TERMCTL_KEYPAD_APP 1 example_xd) = [ESC ++ "="] /\
  keypad (mode (st (setctl_int TICKIT_TERMCTL_KEYPAD_APP 1 example_xd))) = false /\
  out (setctl_int_twice TICKIT_TERMCTL_KEYPAD_APP 1 example_xd)
  = [ESC ++ "="; ESC ++ "="].
Proof.
  repeat split.
Qed.

(* for the alternate screen, the cursor visibility and the mouse the bit
   does follow the sequences: either nothing is written and the bit
   already is as requested, or a sequence is written and the bit becomes
   the requested one *)
Lemma setctl_int_bit_follows (ctl : TickitTermCtl) (value : Z) (xd : XTermDriver) :
  In ctl [TICKIT_TERMCTL_ALTSCREEN; TICKIT_TERMCTL_CURSORVIS; TICKIT_TERMCTL_MOUSE] ->
  let r := setctl_int ctl value xd in
  mode_bit ctl (st r) = negb (value =? 0) /\
  (out r = [] <-> mode_bit ctl xd = negb (value =? 0)).
Proof.
  intros Hin. destruct xd as [t [a v b m k] c].
  destruct Hin as [<- | [<- | [<- | []]]]; unfold setctl_int, bind, get; simpl.
  - destruct a, (value =? 0); simpl; repeat split; intros; congruence.
  - destruct v, (value =? 0); simpl; repeat split; intros; congruence.
  - destruct m, (value =? 0); simpl; repeat split; intros; congruence.
Qed.

(** ** stop *)

(** C9: stop writes the restoring sequences in the order mouse, cursor
    visibility, alternate screen, keypad, each one exactly when its mode
    bit differs from the default. *)
Theorem stop_restores_in_order (xd : XTermDriver) :
  out (stop xd) =
    ((if mouse (mode xd) then [(ESC ++ "[?1002l" ++ ESC ++ "[?1006l")%string] else []) ++
     (if cursorvis (mode xd) then [] else [(ESC ++ "[?25h")%string]) ++
     (if altscreen (mode xd) then [(ESC ++ "[?1049l")%string] else []) ++
     (if keypad (mode xd) then [(ESC ++ ">")%string] else []))%list.
Proof.
  destruct xd as [t [a v b m k] c].
  destruct a, v, m, k; reflexivity.
Qed.

(** ** The capability bits *)

Lemma writes_only_keeps_cap {A} (m : Drv A) : writes_only m -> keeps_cap m.
Proof. intros H xd. rewrite H. reflexivity. Qed.

Lemma keeps_cap_bind {A B} (m : Drv A) (k : A -> Drv B) :
  keeps_cap m -> (forall a, keeps_cap (k a)) -> keeps_cap (bind m k).
Proof.
  intros Hm Hk xd. unfold bind. simpl. rewrite Hk. apply Hm.
Qed.

Lemma keeps_cap_when (c : bool) (m : Drv unit) : keeps_cap m -> keeps_cap (when c m).
Proof. intros Hm. destruct c; [exact Hm | intros xd; reflexivity]. Qed.

Lemma writes_only_print (str : string) : writes_only (print str).
Proof. unfold print. writes_only_tac. Qed.

Lemma writes_only_start : writes_only start.
Proof. unfold start. writes_only_tac. Qed.

Lemma writes_only_ttd_clear : writes_only ttd_clear.
Proof. unfold ttd_clear. writes_only_tac. Qed.

Lemma writes_only_setctl_str (ctl : TickitTermCtl) (value : string) :
  writes_only (setctl_str ctl value).
Proof. unfold setctl_str. destruct ctl; writes_only_tac. Qed.

Lemma writes_only_chpen (delta final : TickitPen) : writes_only (chpen delta final).
Proof.
  unfold chpen.
  destruct (Z.of_nat (List.length (flat_map (chpen_attr delta) pen_attrs)) =? 0);
    writes_only_tac.
Qed.

Lemma writes_only_erasech (count moveend : Z) : writes_only (erasech count moveend).
Proof.
  unfold erasech, tickit_termdrv_current_pen.
  apply writes_only_bind; [auto with writes | intros xd0].
  destruct (count <? 1); [auto with writes |].
  apply writes_only_bind; [writes_only_tac | intros pen].
  destruct (bce (cap xd0) && negb (tickit_pen_get_bool_attr pen TICKIT_PEN_REVERSE)).
  - writes_only_tac.
  - apply writes_only_bind; [apply writes_only_erasech_fill | intros c].
    writes_only_tac.
Qed.

Lemma writes_only_scrollrect (top left lines cols downward rightward : Z) :
  writes_only (scrollrect top left lines cols downward rightward).
Proof.
  unfold scrollrect, tickit_term_get_cols.
  apply writes_only_bind; [auto with writes | intros xd0].
  destruct ((downward =? 0) && (rightward =? 0)); [auto with writes |].
  apply writes_only_bind; [writes_only_tac | intros term_cols].
  destruct (((slrm (cap xd0) && (lines =? 1)) || (left +i cols =? term_cols))
            && (downward =? 0)).
  - apply writes_only_bind; [writes_only_tac | intros _].
    apply writes_only_bind; [| intros _; auto with writes].
    apply writes_only_for_lt. intros line. unfold scrollrect_row. writes_only_tac.
  - destruct (slrm (cap xd0) || ((left =? 0) && (cols =? term_cols) && (rightward =? 0)));
      writes_only_tac.
Qed.

Lemma keeps_cap_setctl_int (ctl : TickitTermCtl) (value : Z) :
  keeps_cap (setctl_int ctl value).
Proof.
  intros xd. unfold setctl_int, bind, get. simpl.
  destruct ctl; simpl; try reflexivity;
    match goal with |- context [Bool.eqb ?a ?b] => destruct (Bool.eqb a b) end;
    reflexivity.
Qed.

Lemma keeps_cap_stop : keeps_cap stop.
Proof.
  unfold stop.
  repeat first
    [ apply keeps_cap_setctl_int
    | apply keeps_cap_when
    | apply writes_only_keeps_cap; solve [auto with writes]
    | apply keeps_cap_bind; [| intro] ].
Qed.

Lemma gotkey_slrm (key : TermKeyKey) (xd : XTermDriver) :
  slrm (cap (st (gotkey key xd))) = slrm (cap xd) || mode_report_confirms key.
Proof.
  unfold gotkey, mode_report_confirms.
  destruct (is_modereport (key_type key)), (report_initial key =? QUESTION_MARK),
    (report_mode key =? 69), (report_value key =? 1), (report_value key =? 2);
    simpl; rewrite ?orb_false_r, ?orb_true_r; reflexivity.
Qed.

Lemma exec_slrm (c : Call) (xd : XTermDriver) :
  slrm (cap (st (exec c xd))) = slrm (cap xd) || confirms_margins c.
Proof.
  destruct c; simpl confirms_margins; rewrite ?orb_false_r;
    try apply gotkey_slrm; apply (f_equal slrm); unfold exec.
  - apply writes_only_keeps_cap, writes_only_start.
  - apply keeps_cap_stop.
  - apply writes_only_keeps_cap, writes_only_print.
  - apply writes_only_keeps_cap, writes_only_goto_abs.
  - apply writes_only_keeps_cap, writes_only_move_rel.
  - apply writes_only_keeps_cap, writes_only_bind;
      [apply writes_only_scrollrect | intro; apply writes_only_ret].
  - apply writes_only_keeps_cap, writes_only_erasech.
  - apply writes_only_keeps_cap, writes_only_ttd_clear.
  - apply writes_only_keeps_cap, writes_only_chpen.
  - apply keeps_cap_bind;
      [apply keeps_cap_setctl_int | intro; apply writes_only_keeps_cap, writes_only_ret].
  - apply writes_only_keeps_cap, writes_only_bind;
      [apply writes_only_setctl_str | intro; apply writes_only_ret].
Qed.

Lemma session_slrm (calls : list Call) (xd : XTermDriver) :
  slrm (cap (st (session calls xd))) = slrm (cap xd) || existsb confirms_margins calls.
Proof.
  revert xd. induction calls as [| c rest IH]; intros xd; simpl.
  - rewrite orb_false_r. reflexivity.
  - unfold bind. simpl. rewrite IH, exec_slrm, orb_assoc. reflexivity.
Qed.

Lemma session_app_st (calls more : list Call) (xd : XTermDriver) :
  st (session (calls ++ more) xd) = st (session more (st (session calls xd))).
Proof.
  revert xd. induction calls as [| c rest IH]; intros xd; simpl.
  - reflexivity.
  - unfold bind. simpl. apply IH.
Qed.

(** C4: the slrm bit (scroll margins supported) is false in a new
    instance; each call sets it exactly when it is a gotkey with a mode
    report carrying '?', mode 69 and status 1 or 2, and leaves it as it
    was otherwise; so along every session the bit after more calls is the
    bit before or-ed with whether one of them confirmed: it never goes
    back to false. *)
Theorem slrm_only_rises :
  (forall tt lookup b_blink b_keypad,
     slrm (cap (new tt lookup b_blink b_keypad)) = false) /\
  (forall c xd,
     slrm (cap (st (exec c xd))) = slrm (cap xd) || confirms_margins c) /\
  (forall calls more xd,
     slrm (cap (st (session (calls ++ more) xd)))
     = slrm (cap (st (session calls xd))) || existsb confirms_margins more).
Proof.
  split; [| split].
  - intros tt lookup b_blink b_keypad. destruct lookup; reflexivity.
  - apply exec_slrm.
  - intros calls more xd. rewrite session_app_st. apply session_slrm.
Qed.

(** ** scrollrect *)

(* how a computation that starts by reading the instance runs *)
Lemma res_eta {A} (r : Res A) : mkRes (val r) (st r) (out r) = r.
Proof. destruct r. reflexivity. Qed.

Lemma run_bind_get {A} (k : XTermDriver -> Drv A) (xd : XTermDriver) :
  (x <- get ;; k x) xd = k xd xd.
Proof. unfold bind, get. simpl. apply res_eta. Qed.

Lemma run_bind_ret {A B} (a : A) (k : A -> Drv B) (xd : XTermDriver) :
  (x <- ret a ;; k x) xd = k a xd.
Proof. unfold bind, ret. simpl. apply res_eta. Qed.

Lemma run_bind_cols {A} (k : Z -> Drv A) (xd : XTermDriver) :
  (x <- tickit_term_get_cols ;; k x) xd = k (term_cols (driver_tt xd)) xd.
Proof. unfold tickit_term_get_cols, bind, get, ret. simpl. apply res_eta. Qed.

Lemma run_bind_pen {A} (k : TickitPen -> Drv A) (xd : XTermDriver) :
  (x <- tickit_termdrv_current_pen ;; k x) xd = k (current_pen (driver_tt xd)) xd.
Proof. unfold tickit_termdrv_current_pen, bind, get, ret. simpl. apply res_eta. Qed.

(** C5: when the margins are not supported, the rectangle's right edge is
    not the terminal's right edge, the rectangle has more than one line
    and the horizontal displacement is not zero, scrollrect returns 0
    (not handled), writes nothing and leaves the instance unchanged. *)
Theorem scrollrect_declines
    (top left lines cols downward rightward : Z) (xd : XTermDriver) :
  Int32.in_int (left + cols) ->
  slrm (cap xd) = false ->
  left + cols <> term_cols (driver_tt xd) ->
  lines > 1 ->
  rightward <> 0 ->
  scrollrect top left lines cols downward rightward xd = mkRes 0 xd [].
Proof.
  intros Hr Hs Hedge _ Hright.
  unfold scrollrect. rewrite run_bind_get.
  apply Z.eqb_neq in Hright. rewrite Hright, andb_false_r.
  rewrite run_bind_cols.
  apply Z.eqb_neq in Hedge. rewrite Hs, (add_exact _ _ Hr), Hedge.
  rewrite andb_false_r. reflexivity.
Qed.

Lemma scrollrect_declines_witness :
  scrollrect 2 3 4 10 0 2 example_xd = mkRes 0 example_xd [].
Proof.
  apply scrollrect_declines.
  - unfold Int32.in_int, Int32.INT_MIN, Int32.INT_MAX. lia.
  - reflexivity.
  - simpl. lia.
  - lia.
  - lia.
Defined.

(** *** The margin sequences of the single-axis strategy *)

Lemma last_char_app (a b : string) :
  last_char (a ++ b) =
  match last_char b with Some d => Some d | None => last_char a end.
Proof.
  induction a as [| c a IH]; simpl.
  - destruct (last_char b); reflexivity.
  - rewrite IH. destruct (last_char b); reflexivity.
Qed.

Ltac last_char_tac := repeat (rewrite last_char_app || simpl); try discriminate.

(* neither the cursor move nor the character shift of a row ends in 's',
   the final byte of the margin sequences *)
Lemma goto_abs_not_margin (line col : Z) (xd : XTermDriver) :
  Forall (fun w => last_char w <> Some "s"%char) (out (goto_abs line col xd)).
Proof.
  unfold goto_abs.
  repeat match goal with
         | |- context [if ?c then _ else _] => destruct c
         end;
    simpl; repeat constructor; last_char_tac.
Qed.

Lemma shift_chars_not_margin (rightward : Z) (xd : XTermDriver) :
  Forall (fun w => last_char w <> Some "s"%char)
         (out (scrollrect_shift_chars rightward xd)).
Proof.
  unfold scrollrect_shift_chars.
  repeat match goal with
         | |- context [if ?c then _ else _] => destruct c
         end;
    simpl; repeat constructor; last_char_tac.
Qed.

Lemma not_in_by_last_char (w : string) (l : list string) :
  last_char w = Some "s"%char ->
  Forall (fun x => last_char x <> Some "s"%char) l ->
  ~ In w l.
Proof.
  intros Hw Hl Hin. rewrite Forall_forall in Hl.
  apply (Hl w Hin). exact Hw.
Qed.

Lemma for_lt_once (body : Z -> Drv unit) (i : Z) (xd : XTermDriver) :
  for_lt body i (i + 1) xd = mkRes tt (st (body i xd)) (out (body i xd)).
Proof.
  rewrite for_lt_step.
  replace (i <? i + 1) with true by (symmetry; apply Z.ltb_lt; lia).
  unfold bind. rewrite for_lt_step, Z.ltb_irrefl. simpl.
  rewrite app_nil_r. reflexivity.
Qed.

(* the strategy narrows the margin only for a rectangle of one line *)
Lemma narrowing_only_for_one_line (lines left cols : Z) (xd : XTermDriver) :
  (slrm (cap xd) = true /\ lines = 1) \/ left + cols = term_cols (driver_tt xd) ->
  left + cols < term_cols (driver_tt xd) ->
  lines = 1.
Proof. intros [[_ H] | H] Hlt; [exact H | lia]. Qed.

(* the row loop on its own writes ESC[s after each row when the right
   edge is left of the terminal's: over two rows, twice *)
Remark row_loop_restores_after_each_row (xd : XTermDriver) :
  out (for_lt (scrollrect_row 3 10 2 80) 2 4 xd)
  = [ESC ++ "[3;4H"; ESC ++ "[2@"; ESC ++ "[s";
     ESC ++ "[4;4H"; ESC ++ "[2@"; ESC ++ "[s"].
Proof.
  rewrite for_lt_step. change (2 <? 4) with true. cbv iota.
  unfold bind at 1. rewrite for_lt_step. change (2 + 1 <? 4) with true. cbv iota.
  unfold bind at 1. rewrite for_lt_step. change (2 + 1 + 1 <? 4) with false.
  reflexivity.
Qed.

(** C3: in the single-axis strategy (downward = 0, and margins supported
    with one line, or the rectangle's right edge on the terminal's), when
    the rectangle's right edge is left of the terminal's, scrollrect
    writes the sequence narrowing the right margin once, first, then the
    cursor move and character shift of the rows, then the sequence
    restoring the margins, ESC[s, once, last; this for every height the
    strategy admits. *)
Theorem scrollrect_margin_narrowed_and_restored_once
    (top left lines cols rightward : Z) (xd : XTermDriver) :
  let narrow := ESC ++ "[;" ++ fmt_d (left + cols) ++ "s" in
  let restore := ESC ++ "[s" in
  let rows := (out (goto_abs top left xd) ++
               out (scrollrect_shift_chars rightward xd))%list in
  rect_in_int top left lines cols ->
  rightward <> 0 ->
  (slrm (cap xd) = true /\ lines = 1) \/ left + cols = term_cols (driver_tt xd) ->
  left + cols < term_cols (driver_tt xd) ->
  scrollrect top left lines cols 0 rightward xd
  = mkRes 1 xd ([narrow] ++ rows ++ [restore])%list /\
  ~ In narrow rows /\ ~ In restore rows.
Proof.
  intros narrow restore rows [Hb Hr] Hright Hstrategy Hedge.
  destruct Hstrategy as [[Hs ->] | Heq]; [| lia].
  split.
  - unfold scrollrect. rewrite run_bind_get.
    apply Z.eqb_neq in Hright. rewrite Hright, andb_false_r.
    rewrite run_bind_cols.
    rewrite Hs, (add_exact _ _ Hr), (add_exact _ _ Hb).
    change (1 =? 1) with true. change (0 =? 0) with true. cbn [andb orb].
    apply Z.ltb_lt in Hedge. rewrite Hedge.
    unfold bind, ret, when, tickit_termdrv_write_strf, emit. cbn [val st out].
    rewrite for_lt_once. unfold scrollrect_row, bind, when.
    rewrite (add_exact _ _ Hr), Hedge.
    cbn [val st out tickit_termdrv_write_strf emit].
    rewrite !writes_only_goto_abs, !writes_only_shift_chars.
    unfold rows. rewrite app_nil_r, <- app_assoc. reflexivity.
  - split; apply not_in_by_last_char;
      try (apply Forall_app; split;
           [apply goto_abs_not_margin | apply shift_chars_not_margin]).
    + unfold narrow. last_char_tac. reflexivity.
    + reflexivity.
Qed.

Lemma scrollrect_margin_narrowed_and_restored_once_witness :
  scrollrect 2 3 1 10 0 2 (set_slrm true example_xd)
  = mkRes 1 (set_slrm true example_xd)
      [ESC ++ "[;13s"; ESC ++ "[3;4H"; ESC ++ "[2@"; ESC ++ "[s"] /\
  ~ In (ESC ++ "[;13s") [ESC ++ "[3;4H"; ESC ++ "[2@"] /\
  ~ In (ESC ++ "[s") [ESC ++ "[3;4H"; ESC ++ "[2@"].
Proof.
  apply (scrollrect_margin_narrowed_and_restored_once 2 3 1 10 2
           (set_slrm true example_xd)).
  - unfold rect_in_int, Int32.in_int, Int32.INT_MIN, Int32.INT_MAX. lia.
  - lia.
  - left. split; reflexivity.
  - simpl. lia.
Defined.

(** ** chpen *)

Lemma chpen_attr_nonempty (delta : TickitPen) (attr : TickitPenAttr) :
  tickit_pen_has_attr delta attr = true -> chpen_attr delta attr <> [].
Proof.
  intros H. unfold chpen_attr. rewrite H. simpl negb. cbv iota.
  destruct attr;
    repeat match goal with
           | |- context [if ?c then _ else _] => destruct c
           end;
    discriminate.
Qed.

Lemma in_pen_attrs (attr : TickitPenAttr) : In attr pen_attrs.
Proof. destruct attr; simpl; tauto. Qed.

Lemma chpen_params_nonempty (delta : TickitPen) :
  (exists attr, tickit_pen_has_attr delta attr = true) ->
  flat_map (chpen_attr delta) pen_attrs <> [].
Proof.
  intros [attr H] Hnil.
  destruct (chpen_attr delta attr) as [| p ps] eqn:E.
  - exact (chpen_attr_nonempty delta attr H E).
  - assert (Hin : In p (flat_map (chpen_attr delta) pen_attrs)).
    { apply in_flat_map. exists attr. split; [apply in_pen_attrs |].
      rewrite E. left. reflexivity. }
    rewrite Hnil in Hin. exact Hin.
Qed.

(** C7: when the delta sets at least one attribute and the final pen has
    no attribute away from its default, chpen drops the parameters it has
    computed and writes exactly the bare reset ESC[m. *)
Theorem chpen_bare_reset (delta final : TickitPen) (xd : XTermDriver) :
  (exists attr, tickit_pen_has_attr delta attr = true) ->
  tickit_pen_is_nondefault final = false ->
  chpen delta final xd = mkRes tt xd [ESC ++ "[m"].
Proof.
  intros Hdelta Hfinal. unfold chpen.
  pose proof (chpen_params_nonempty delta Hdelta) as Hne.
  destruct (flat_map (chpen_attr delta) pen_attrs) as [| p ps]; [contradiction |].
  rewrite Hfinal. reflexivity.
Qed.

Lemma chpen_bare_reset_witness :
  chpen example_delta empty_pen example_xd = mkRes tt example_xd [ESC ++ "[m"].
Proof.
  apply chpen_bare_reset.
  - exists TICKIT_PEN_FG. reflexivity.
  - reflexivity.
Defined.

(** ** erasech *)

(* the loop writes one chunk of 64 bytes for each whole 64 it takes off
   the count, and stops with between 1 and 64 left *)
Lemma erasech_fill_chunks (n : nat) (r : Z) (spaces : string) (xd : XTermDriver) :
  1 <= r <= 64 ->
  erasech_fill spaces (64 * Z.of_nat n + r) xd
  = mkRes r xd (repeat (substring 0 64 spaces) n).
Proof.
  intros Hr. induction n as [| n IH].
  - rewrite erasech_fill_step.
    destruct (Z.gtb_spec (64 * Z.of_nat 0 + r) 64); [lia |].
    simpl. reflexivity.
  - rewrite erasech_fill_step.
    destruct (Z.gtb_spec (64 * Z.of_nat (S n) + r) 64); [| lia].
    replace (64 * Z.of_nat (S n) + r - 64) with (64 * Z.of_nat n + r) by lia.
    unfold bind. cbn [val st out tickit_termdrv_write_str emit].
    rewrite IH. reflexivity.
Qed.

(* the overwriting branch of erasech, for a count of n whole chunks and
   r more: the cursor is moved back by r columns, the count left after
   the loop, not by the 64 * n + r columns that were written *)
Lemma erasech_overwrite (n : nat) (r moveend : Z) (xd : XTermDriver) :
  1 <= r <= 64 ->
  bce (cap xd) &&
    negb (tickit_pen_get_bool_attr (current_pen (driver_tt xd)) TICKIT_PEN_REVERSE)
  = false ->
  out (erasech (64 * Z.of_nat n + r) moveend xd)
  = (repeat (replicate 64 " "%char) n ++
     [replicate (Z.to_nat r) " "%char] ++
     (if moveend =? 0 then out (move_rel 0 (- r) xd) else []))%list.
Proof.
  intros Hr Hbce. unfold erasech.
  rewrite run_bind_get.
  destruct (Z.ltb_spec (64 * Z.of_nat n + r) 1); [lia |].
  rewrite run_bind_pen, Hbce.
  unfold bind. cbn [val st out].
  rewrite erasech_fill_chunks by lia. cbn [val st out].
  rewrite neg_exact
    by (unfold Int32.in_int, Int32.INT_MIN, Int32.INT_MAX; lia).
  f_equal.
  assert (Hsub : forall k, (k <= 64)%nat ->
             substring 0 k (replicate 64 " "%char) = replicate k " "%char).
  { intros k Hk.
    do 65 (destruct k as [| k]; [reflexivity |]). lia. }
  unfold tickit_termdrv_write_str, emit. cbn [out st].
  destruct (Z.eqb_spec r 0); [lia |].
  rewrite Hsub by lia.
  destruct (moveend =? 0); reflexivity.
Qed.

(** C1 fails at count = 70: without background-colour erase,
    erasech(70, 0) writes 64 blanks, then 6 blanks, and then moves the
    cursor back by 6 columns (ESC[6D), the count left after the loop, and
    not by the 70 columns written (ESC[70D). *)
Theorem erasech_70_moves_back_by_6 :
  out (erasech 70 0 example_xd_nobce)
  = [replicate 64 " "%char; replicate 6 " "%char; ESC ++ "[6D"] /\
  String.length (bytes_of [replicate 64 " "%char; replicate 6 " "%char]) = 70%nat /\
  out (move_rel 0 (-i 70) example_xd_nobce) = [ESC ++ "[70D"].
Proof.
  repeat split; vm_compute; reflexivity.
Qed.


(** * Further properties of the driver *)

(** ** print, goto_abs, move_rel *)

Lemma substring_full (s : string) : substring 0 (String.length s) s = s.
Proof.
  induction s as [| c s IH]; simpl; [reflexivity | rewrite IH; reflexivity].
Qed.

(** X1: print writes its text as one string, byte for byte, whatever the
    text, the empty one included, and leaves the instance unchanged. *)
Theorem print_verbatim (str : string) (xd : XTermDriver) :
  print str xd = mkRes tt xd [str].
Proof.
  unfold print, tickit_termdrv_write_str, emit.
  destruct (Z.of_nat (String.length str) =? 0); [reflexivity |].
  rewrite Nat2Z.id, substring_full. reflexivity.
Qed.

(** X2: goto_abs writes nothing exactly when both coordinates are the
    sentinel -1; any other pair, negative values included, gets a
    sequence. *)
Theorem goto_abs_silent_iff (line col : Z) (xd : XTermDriver) :
  out (goto_abs line col xd) = [] <-> line = -1 /\ col = -1.
Proof.
  unfold goto_abs.
  destruct (Z.eqb_spec line (-1)), (Z.gtb_spec col 0), (Z.eqb_spec col 0),
    (Z.eqb_spec col (-1)); simpl; split;
    try discriminate; try lia; try reflexivity; intros [? ?]; lia.
Qed.

(** X3: a move on both axes writes what the vertical move alone writes,
    followed by what the horizontal move alone writes. *)
Theorem move_rel_vertical_then_horizontal (downward rightward : Z) (xd : XTermDriver) :
  out (move_rel downward rightward xd)
  = (out (move_rel downward 0 xd) ++ out (move_rel 0 rightward xd))%list.
Proof.
  unfold move_rel, bind. simpl.
  repeat match goal with
         | |- context [if ?c then _ else _] => destruct c
         end; reflexivity.
Qed.

(** X4: move_rel writes nothing exactly when both displacements are 0. *)
Theorem move_rel_silent_iff (downward rightward : Z) (xd : XTermDriver) :
  out (move_rel downward rightward xd) = [] <-> downward = 0 /\ rightward = 0.
Proof.
  unfold move_rel, bind.
  destruct (Z.gtb_spec downward 1), (Z.eqb_spec downward 1),
    (Z.eqb_spec downward (-1)), (Z.ltb_spec downward (-1)),
    (Z.gtb_spec rightward 1), (Z.eqb_spec rightward 1),
    (Z.eqb_spec rightward (-1)), (Z.ltb_spec rightward (-1));
    simpl; split; try discriminate; try lia; try reflexivity; intros [? ?]; lia.
Qed.

(** ** scrollrect *)

(** X5: whenever scrollrect returns 0 (not handled) it has written
    nothing and left the instance unchanged, whatever the request. *)
Theorem scrollrect_decline_is_silent
    (top left lines cols downward rightward : Z) (xd : XTermDriver) :
  val (scrollrect top left lines cols downward rightward xd) = 0 ->
  scrollrect top left lines cols downward rightward xd = mkRes 0 xd [].
Proof.
  unfold scrollrect. rewrite run_bind_get.
  destruct ((downward =? 0) && (rightward =? 0)); [discriminate |].
  rewrite run_bind_cols.
  destruct (((slrm (cap xd) && (lines =? 1)) ||
             (left +i cols =? term_cols (driver_tt xd))) && (downward =? 0));
    [unfold bind; cbn [val ret]; discriminate |].
  destruct (slrm (cap xd) ||
            ((left =? 0) && (cols =? term_cols (driver_tt xd)) && (rightward =? 0)));
    [unfold bind; cbn [val ret]; discriminate |].
  reflexivity.
Qed.

Lemma scrollrect_decline_is_silent_witness :
  scrollrect 2 3 4 10 0 2 example_xd = mkRes 0 example_xd [].
Proof.
  apply scrollrect_decline_is_silent. vm_compute. reflexivity.
Defined.

(** X6: once the margins are supported scrollrect handles every request:
    it returns 1. *)
Theorem scrollrect_handles_with_margins
    (top left lines cols downward rightward : Z) (xd : XTermDriver) :
  slrm (cap xd) = true ->
  val (scrollrect top left lines cols downward rightward xd) = 1.
Proof.
  intros Hs. unfold scrollrect. rewrite run_bind_get.
  destruct ((downward =? 0) && (rightward =? 0)); [reflexivity |].
  rewrite run_bind_cols, Hs.
  destruct (((true && (lines =? 1)) ||
             (left +i cols =? term_cols (driver_tt xd))) && (downward =? 0));
    reflexivity.
Qed.

Lemma scrollrect_handles_with_margins_witness :
  val (scrollrect 2 3 4 10 1 2 (set_slrm true example_xd)) = 1.
Proof.
  apply scrollrect_handles_with_margins. reflexivity.
Defined.

(* what a loop over rows writes, when its body only writes *)
Lemma for_lt_out (body : Z -> Drv unit) (n : nat) (i bound : Z) (xd : XTermDriver) :
  (forall j, writes_only (body j)) ->
  n = Z.to_nat (bound - i) ->
  out (for_lt body i bound xd) = flat_map (fun j => out (body j xd)) (zrange i n).
Proof.
  intros Hbody. revert i. induction n as [| n IH]; intros i Hn;
    rewrite for_lt_step; destruct (Z.ltb_spec i bound); try lia.
  - reflexivity.
  - unfold bind. cbn [out zrange flat_map]. rewrite Hbody.
    rewrite (IH (i + 1)) by lia. reflexivity.
Qed.

(** X7: when the rectangle's right edge is the terminal's and only a
    horizontal displacement is asked, scrollrect writes, for each row of
    the rectangle from the top down, the cursor move to (row, left) and
    the character shift, and no margin sequence; a rectangle with no
    line gets no write; the call returns 1. *)
Theorem scrollrect_edge_aligned_rows
    (top left lines cols rightward : Z) (xd : XTermDriver) :
  Int32.in_int (top + lines) ->
  Int32.in_int (left + cols) ->
  left + cols = term_cols (driver_tt xd) ->
  rightward <> 0 ->
  scrollrect top left lines cols 0 rightward xd
  = mkRes 1 xd
      (flat_map (fun row => out (goto_abs row left xd) ++
                            out (scrollrect_shift_chars rightward xd))%list
                (zrange top (Z.to_nat lines))).
Proof.
  intros Hb Hr Hedge Hright.
  assert (Hst : st (scrollrect top left lines cols 0 rightward xd) = xd)
    by apply writes_only_scrollrect.
  revert Hst. unfold scrollrect. rewrite run_bind_get.
  apply Z.eqb_neq in Hright. rewrite Hright, andb_false_r.
  rewrite run_bind_cols, (add_exact _ _ Hr), (add_exact _ _ Hb).
  rewrite Hedge, Z.eqb_refl, orb_true_r, Z.ltb_irrefl.
  change (0 =? 0) with true. cbn [andb].
  unfold bind, when, ret. cbn [val st out].
  intros Hst. rewrite Hst. f_equal.
  rewrite app_nil_r. cbn [app].
  rewrite (for_lt_out _ (Z.to_nat lines)).
  - apply flat_map_ext. intros row.
    unfold scrollrect_row, bind, when, ret.
    rewrite (add_exact _ _ Hr), Hedge, Z.ltb_irrefl. cbn [val st out].
    rewrite writes_only_goto_abs, app_nil_r.
    reflexivity.
  - intros j. unfold scrollrect_row. writes_only_tac.
  - f_equal. lia.
Qed.

Lemma scrollrect_edge_aligned_rows_witness :
  scrollrect 2 70 3 10 0 (-2) example_xd
  = mkRes 1 example_xd
      [ESC ++ "[3;71H"; ESC ++ "[2P"; ESC ++ "[4;71H"; ESC ++ "[2P";
       ESC ++ "[5;71H"; ESC ++ "[2P"].
Proof.
  apply (scrollrect_edge_aligned_rows 2 70 3 10 (-2) example_xd).
  - unfold Int32.in_int, Int32.INT_MIN, Int32.INT_MAX. lia.
  - unfold Int32.in_int, Int32.INT_MIN, Int32.INT_MAX. lia.
  - reflexivity.
  - lia.
Defined.

(* the line shift and the column shift of the region strategy, as
   scrollrect writes them *)
Lemma region_line_shift (downward : Z) (xd : XTermDriver) :
  Int32.in_int (- downward) ->
  (if downward >? 1 then
     tickit_termdrv_write_strf (ESC ++ "[" ++ fmt_d downward ++ "M")
   else if downward =? 1 then
     tickit_termdrv_write_str (ESC ++ "[M") 3
   else if downward =? -1 then
     tickit_termdrv_write_str (ESC ++ "[L") 3
   else if downward <? -1 then
     tickit_termdrv_write_strf (ESC ++ "[" ++ fmt_d (-i downward) ++ "L")
   else ret tt) xd
  = mkRes tt xd (line_shift_seq downward).
Proof.
  intros Hn. rewrite (neg_exact _ Hn). unfold line_shift_seq.
  destruct (Z.gtb_spec downward 1), (Z.eqb_spec downward 1),
    (Z.eqb_spec downward (-1)), (Z.ltb_spec downward (-1)),
    (Z.eqb_spec downward 0), (Z.ltb_spec 0 downward); try lia; reflexivity.
Qed.

Lemma region_col_shift (rightward : Z) (xd : XTermDriver) :
  Int32.in_int (- rightward) ->
  ((if rightward >? 1 then
      tickit_termdrv_write_strf (ESC ++ "[" ++ fmt_d rightward ++ "'~")
    else if rightward =? 1 then
      tickit_termdrv_write_str (ESC ++ "['~") 4
    else if rightward =? -1 then
      tickit_termdrv_write_str (ESC ++ "['}") 4
    else ret tt) ;;
   when (rightward <? -1)
     (tickit_termdrv_write_strf (ESC ++ "[" ++ fmt_d (-i rightward) ++ "'}"))) xd
  = mkRes tt xd (col_shift_seq rightward).
Proof.
  intros Hn. rewrite (neg_exact _ Hn). unfold col_shift_seq, bind, when.
  destruct (Z.gtb_spec rightward 1), (Z.eqb_spec rightward 1),
    (Z.eqb_spec rightward (-1)), (Z.ltb_spec rightward (-1)),
    (Z.eqb_spec rightward 0), (Z.ltb_spec 0 rightward); try lia; reflexivity.
Qed.

(* running two computations in a row, and three *)
Lemma run_seq {A B} (m : Drv A) (k : Drv B) (xd : XTermDriver) :
  (m ;; k) xd
  = mkRes (val (k (st (m xd)))) (st (k (st (m xd))))
          (out (m xd) ++ out (k (st (m xd))))%list.
Proof. reflexivity. Qed.

Lemma run_seq_assoc {A B C} (m : Drv A) (k : Drv B) (h : Drv C) (xd : XTermDriver) :
  (m ;; k ;; h) xd = ((m ;; k) ;; h) xd.
Proof. unfold bind. cbn [val st out]. rewrite app_assoc. reflexivity. Qed.

(** X8: for a request with a vertical displacement that the region
    strategy can serve (margins supported, or a full-width rectangle with
    no horizontal displacement), scrollrect writes, in this order: the
    scroll region of the rectangle's rows; the left and right margins if
    the rectangle is not full-width; the cursor move to its top left; the
    line shift; the column shift; the reset of the scroll region; and,
    if it had set the margins, their reset.  It returns 1. *)
Theorem scrollrect_region_strategy
    (top left lines cols downward rightward : Z) (xd : XTermDriver) :
  let term := term_cols (driver_tt xd) in
  let partial := (left >? 0) || (left + cols <? term) in
  scroll_in_int top left lines cols downward rightward ->
  downward <> 0 ->
  slrm (cap xd) = true \/ (left = 0 /\ cols = term /\ rightward = 0) ->
  scrollrect top left lines cols downward rightward xd
  = mkRes 1 xd
      ([seq_scroll_region (top + 1) (top + lines)] ++
       (if partial then [seq_margins (left + 1) (left + cols)] else []) ++
       out (goto_abs top left xd) ++
       line_shift_seq downward ++
       col_shift_seq rightward ++
       [(ESC ++ "[r")%string] ++
       (if partial then [(ESC ++ "[s")%string] else []))%list.
Proof.
  intros term partial (Ht1 & Htl & Hl1 & Hlc & Hnd & Hnr) Hdown Hstrategy.
  unfold scrollrect. rewrite run_bind_get.
  apply Z.eqb_neq in Hdown. rewrite Hdown, andb_false_l.
  rewrite run_bind_cols, andb_false_r.
  rewrite !(add_exact _ _ Ht1), !(add_exact _ _ Htl), !(add_exact _ _ Hl1),
    !(add_exact _ _ Hlc).
  fold term.
  replace (slrm (cap xd) || ((left =? 0) && (cols =? term) && (rightward =? 0)))
    with true.
  2:{ destruct Hstrategy as [-> | (-> & -> & ->)]; [reflexivity |].
      rewrite !Z.eqb_refl, orb_true_r. reflexivity. }
  fold partial. cbv iota.
  rewrite run_seq, run_seq, run_seq, run_seq.
  rewrite run_seq_assoc, run_seq.
  rewrite !region_col_shift by exact Hnr.
  rewrite !region_line_shift by exact Hnd.
  change (tickit_termdrv_write_str (ESC ++ "[r") 3) with (emit (ESC ++ "[r")).
  change (tickit_termdrv_write_str (ESC ++ "[s") 3) with (emit (ESC ++ "[s")).
  destruct partial;
    unfold bind, when, ret, tickit_termdrv_write_strf, emit,
      seq_scroll_region, seq_margins;
    cbn [val st out]; rewrite ?writes_only_goto_abs; cbn [app];
    rewrite ?app_nil_r; reflexivity.
Qed.

Lemma scrollrect_region_strategy_witness :
  scrollrect 2 3 4 10 1 2 (set_slrm true example_xd)
  = mkRes 1 (set_slrm true example_xd)
      [ESC ++ "[3;6r"; ESC ++ "[4;13s"; ESC ++ "[3;4H"; ESC ++ "[M";
       ESC ++ "[2'~"; ESC ++ "[r"; ESC ++ "[s"].
Proof.
  apply (scrollrect_region_strategy 2 3 4 10 1 2 (set_slrm true example_xd)).
  - unfold scroll_in_int, Int32.in_int, Int32.INT_MIN, Int32.INT_MAX. lia.
  - lia.
  - left. reflexivity.
Defined.

(** ** erasech *)

(* a count of at least 1 is some whole chunks of 64 and 1 to 64 more *)
Lemma count_chunks (count : Z) :
  1 <= count ->
  exists (n : nat) (r : Z), count = 64 * Z.of_nat n + r /\ 1 <= r <= 64.
Proof.
  intros H. exists (Z.to_nat ((count - 1) / 64)), ((count - 1) mod 64 + 1).
  pose proof (Z.div_mod (count - 1) 64 ltac:(lia)).
  pose proof (Z.mod_pos_bound (count - 1) 64 ltac:(lia)).
  pose proof (Z.div_pos (count - 1) 64 ltac:(lia) ltac:(lia)).
  rewrite Z2Nat.id by lia. lia.
Qed.

Lemma replicate_app (a b : nat) (c : ascii) :
  replicate a c ++ replicate b c = replicate (a + b) c.
Proof.
  induction a as [| a IH]; simpl; [reflexivity | rewrite IH; reflexivity].
Qed.

Lemma bytes_of_cons (w : string) (ws : list string) :
  bytes_of (w :: ws) = w ++ bytes_of ws.
Proof.
  unfold bytes_of. destruct ws as [| w' ws]; simpl.
  - induction w as [| c w IH]; simpl; [reflexivity | rewrite <- IH; reflexivity].
  - reflexivity.
Qed.

Lemma bytes_of_chunks (n r : nat) (c : ascii) :
  bytes_of (repeat (replicate 64 c) n ++ [replicate r c])%list
  = replicate (64 * n + r) c.
Proof.
  induction n as [| n IH].
  - simpl repeat. simpl app. rewrite bytes_of_cons.
    change (bytes_of []) with "". replace (64 * 0 + r)%nat with (r + 0)%nat by lia.
    rewrite <- replicate_app. reflexivity.
  - cbn [repeat app]. rewrite bytes_of_cons, IH, replicate_app.
    f_equal. lia.
Qed.

(** X9: erasech writes nothing exactly when the count is below 1. *)
Theorem erasech_silent_iff (count moveend : Z) (xd : XTermDriver) :
  out (erasech count moveend xd) = [] <-> count < 1.
Proof.
  split.
  - intros Hout. destruct (Z.lt_ge_cases count 1) as [H | H]; [exact H | exfalso].
    destruct (bce (cap xd) &&
              negb (tickit_pen_get_bool_attr (current_pen (driver_tt xd))
                                             TICKIT_PEN_REVERSE)) eqn:Hbce.
    + revert Hout. unfold erasech. rewrite run_bind_get.
      destruct (Z.ltb_spec count 1); [lia |].
      rewrite run_bind_pen, Hbce. unfold bind.
      destruct (count =? 1); discriminate.
    + destruct (count_chunks count H) as (n & r & -> & Hr).
      rewrite (erasech_overwrite n r moveend xd Hr Hbce) in Hout.
      destruct n; discriminate.
  - intros H. unfold erasech. rewrite run_bind_get.
    destruct (Z.ltb_spec count 1); [reflexivity | lia].
Qed.

(** X10: when erasech overwrites (no background-colour erase, or a pen in
    reverse video) and is not asked to keep the cursor in place, the
    bytes it writes are exactly count blanks. *)
Theorem erasech_overwrite_writes_count_blanks (count moveend : Z) (xd : XTermDriver) :
  1 <= count ->
  moveend <> 0 ->
  bce (cap xd) &&
    negb (tickit_pen_get_bool_attr (current_pen (driver_tt xd)) TICKIT_PEN_REVERSE)
  = false ->
  bytes_of (out (erasech count moveend xd)) = replicate (Z.to_nat count) " "%char.
Proof.
  intros H Hmove Hbce.
  destruct (count_chunks count H) as (n & r & -> & Hr).
  rewrite (erasech_overwrite n r moveend xd Hr Hbce).
  apply Z.eqb_neq in Hmove. rewrite Hmove. cbn [app].
  rewrite bytes_of_chunks. f_equal. lia.
Qed.

Lemma erasech_overwrite_writes_count_blanks_witness :
  bytes_of (out (erasech 130 1 (new reverse_pen_tt None false false)))
  = replicate 130 " "%char.
Proof.
  apply (erasech_overwrite_writes_count_blanks 130 1
           (new reverse_pen_tt None false false)).
  - lia.
  - lia.
  - reflexivity.
Defined.

(** X11: when erasech overwrites a count of 1 to 64 and is asked to keep
    the cursor in place (moveend = 0), it writes count blanks in one
    string and then the move of exactly count columns to the left. *)
Theorem erasech_overwrite_small_restores_cursor (count : Z) (xd : XTermDriver) :
  1 <= count <= 64 ->
  bce (cap xd) &&
    negb (tickit_pen_get_bool_attr (current_pen (driver_tt xd)) TICKIT_PEN_REVERSE)
  = false ->
  out (erasech count 0 xd)
  = (replicate (Z.to_nat count) " "%char :: out (move_rel 0 (- count) xd))%list.
Proof.
  intros Hr Hbce.
  pose proof (erasech_overwrite 0 count 0 xd Hr Hbce) as H.
  replace (64 * Z.of_nat 0 + count) with count in H by lia.
  exact H.
Qed.

Lemma erasech_overwrite_small_restores_cursor_witness :
  out (erasech 6 0 example_xd_nobce) = [replicate 6 " "%char; ESC ++ "[6D"].
Proof.
  apply (erasech_overwrite_small_restores_cursor 6 example_xd_nobce).
  - lia.
  - reflexivity.
Defined.

(** X12: with background-colour erase and a pen not in reverse video,
    erasech of a count of at least 1 writes the erase-characters sequence
    (ESC[X for 1, ESC[{count}X otherwise) and then, only when asked to
    end past the erased cells (moveend = 1), the move of count columns
    to the right. *)
Theorem erasech_hardware_erase (count moveend : Z) (xd : XTermDriver) :
  1 <= count ->
  bce (cap xd) = true ->
  tickit_pen_get_bool_attr (current_pen (driver_tt xd)) TICKIT_PEN_REVERSE = false ->
  erasech count moveend xd
  = mkRes tt xd
      (seq_erase_chars count
       :: (if moveend =? 1 then out (move_rel 0 count xd) else []))%list.
Proof.
  intros H Hbce Hrev.
  assert (Hst : st (erasech count moveend xd) = xd) by apply writes_only_erasech.
  revert Hst. unfold erasech. rewrite run_bind_get.
  destruct (Z.ltb_spec count 1); [lia |].
  rewrite run_bind_pen, Hbce, Hrev. cbn [andb negb].
  unfold bind, when, seq_erase_chars.
  destruct (count =? 1), (moveend =? 1); cbn [val st out ret tickit_termdrv_write_str tickit_termdrv_write_strf emit];
    intros Hst; rewrite ?Hst; try destruct (val (move_rel 0 count xd)); reflexivity.
Qed.

Lemma erasech_hardware_erase_witness :
  erasech 5 1 example_xd = mkRes tt example_xd [ESC ++ "[5X"; ESC ++ "[5C"].
Proof.
  apply (erasech_hardware_erase 5 1 example_xd).
  - lia.
  - reflexivity.
  - reflexivity.
Defined.

(** ** chpen *)

Lemma chpen_attr_length (delta : TickitPen) (attr : TickitPenAttr) :
  (List.length (chpen_attr delta attr) <=
   match attr with TICKIT_PEN_FG | TICKIT_PEN_BG => 3 | _ => 1 end)%nat.
Proof.
  unfold chpen_attr.
  destruct (tickit_pen_has_attr delta attr); simpl negb; cbv iota;
    destruct attr; simpl; try lia;
    repeat match goal with
           | |- context [if ?c then _ else _] => destruct c
           end; simpl; lia.
Qed.

(** X13: chpen computes at most 12 parameters, the size of its params
    array: 3 for each colour and 1 for each of the 6 other attributes. *)
Theorem chpen_params_at_most_12 (delta : TickitPen) :
  (List.length (flat_map (chpen_attr delta) pen_attrs) <= 12)%nat.
Proof.
  unfold pen_attrs. cbn [flat_map]. rewrite !length_app.
  pose proof (chpen_attr_length delta TICKIT_PEN_FG).
  pose proof (chpen_attr_length delta TICKIT_PEN_BG).
  pose proof (chpen_attr_length delta TICKIT_PEN_BOLD).
  pose proof (chpen_attr_length delta TICKIT_PEN_UNDER).
  pose proof (chpen_attr_length delta TICKIT_PEN_ITALIC).
  pose proof (chpen_attr_length delta TICKIT_PEN_REVERSE).
  pose proof (chpen_attr_length delta TICKIT_PEN_STRIKE).
  pose proof (chpen_attr_length delta TICKIT_PEN_ALTFONT).
  cbv iota in *. simpl List.length at 9. lia.
Qed.

Lemma string_length_app (a b : string) :
  String.length (a ++ b) = (String.length a + String.length b)%nat.
Proof.
  induction a as [| c a IH]; simpl; [reflexivity | rewrite IH; reflexivity].
Qed.

(* the length chpen computes for its buffer is the length of what it
   renders *)
Lemma chpen_render_length (params : list Z) :
  params <> [] ->
  fold_right (fun p acc => Z.of_nat (String.length (fmt_param p)) + 1 + acc) 0 params - 1
  = Z.of_nat (String.length (chpen_render params)).
Proof.
  induction params as [| p ps IH]; [congruence | intros _].
  destruct ps as [| q ps].
  - simpl. lia.
  - cbn [fold_right chpen_render] in *.
    rewrite !string_length_app. cbn [String.length].
    specialize (IH ltac:(discriminate)). lia.
Qed.

Lemma chpen_buffer_length (params : list Z) :
  (if Z.of_nat (List.length params) >? 0
   then 3 + fold_right
              (fun p acc => Z.of_nat (String.length (fmt_param p)) + 1 + acc)
              0 params - 1
   else 3 + fold_right
              (fun p acc => Z.of_nat (String.length (fmt_param p)) + 1 + acc)
              0 params)
  = Z.of_nat (String.length (ESC ++ "[" ++ chpen_render params ++ "m")).
Proof.
  assert (Hlen : String.length (ESC ++ "[" ++ chpen_render params ++ "m")
                 = (3 + String.length (chpen_render params))%nat).
  { cbn [ESC append String.length]. rewrite string_length_app. simpl. lia. }
  rewrite Hlen. destruct params as [| p ps].
  - reflexivity.
  - pose proof (chpen_render_length (p :: ps) ltac:(discriminate)).
    destruct (Z.gtb_spec (Z.of_nat (List.length (p :: ps))) 0);
      [lia | simpl List.length in *; lia].
Qed.

(* what chpen writes when the delta sets something *)
Lemma chpen_out (delta final : TickitPen) (xd : XTermDriver) :
  flat_map (chpen_attr delta) pen_attrs <> [] ->
  chpen delta final xd
  = mkRes tt xd
      [ESC ++ "[" ++
       chpen_render (if tickit_pen_is_nondefault final
                     then flat_map (chpen_attr delta) pen_attrs else []) ++ "m"].
Proof.
  intros Hne. unfold chpen.
  set (params := flat_map (chpen_attr delta) pen_attrs) in *.
  destruct (Z.eqb_spec (Z.of_nat (List.length params)) 0) as [E | _].
  - destruct params; [congruence | discriminate].
  - destruct (tickit_pen_is_nondefault final); cbn [negb].
    + rewrite Nat2Z.id, firstn_all.
      rewrite chpen_buffer_length.
      unfold tickit_termdrv_write_str, emit.
      destruct (Z.eqb_spec
                  (Z.of_nat (String.length (ESC ++ "[" ++ chpen_render params ++ "m"))) 0).
      * reflexivity.
      * rewrite Nat2Z.id, substring_full. reflexivity.
    + reflexivity.
Qed.

Lemma chpen_attr_absent (delta : TickitPen) (attr : TickitPenAttr) :
  tickit_pen_has_attr delta attr = false -> chpen_attr delta attr = [].
Proof. intros H. unfold chpen_attr. rewrite H. reflexivity. Qed.

(** X14: chpen writes nothing exactly when the delta sets no attribute,
    whatever the final pen. *)
Theorem chpen_silent_iff (delta final : TickitPen) (xd : XTermDriver) :
  out (chpen delta final xd) = [] <->
  (forall attr, tickit_pen_has_attr delta attr = false).
Proof.
  split.
  - intros Hout attr.
    destruct (tickit_pen_has_attr delta attr) eqn:E; [exfalso | reflexivity].
    assert (Hne : flat_map (chpen_attr delta) pen_attrs <> [])
      by (apply chpen_params_nonempty; exists attr; exact E).
    rewrite (chpen_out delta final xd Hne) in Hout. discriminate.
  - intros Hnone. unfold chpen, pen_attrs. cbn [flat_map].
    rewrite !chpen_attr_absent by apply Hnone. reflexivity.
Qed.

Lemma chpen_render_concat (params : list Z) :
  chpen_render params = String.concat ";" (map fmt_param params).
Proof.
  induction params as [| p ps IH]; [reflexivity |].
  destruct ps as [| q ps]; [reflexivity |].
  cbn [chpen_render map String.concat] in *. rewrite IH. reflexivity.
Qed.

(** X15: when the delta sets an attribute and the final pen is not all
    default, chpen writes one string: ESC[, then its parameters, each
    without the flag bit 0x80000000, joined by ';', then m.  The length
    it computes beforehand is the length of that string: the buffer is
    written whole. *)
Theorem chpen_writes_joined_params (delta final : TickitPen) (xd : XTermDriver) :
  (exists attr, tickit_pen_has_attr delta attr = true) ->
  tickit_pen_is_nondefault final = true ->
  chpen delta final xd
  = mkRes tt xd
      [ESC ++ "[" ++
       String.concat ";" (map fmt_param (flat_map (chpen_attr delta) pen_attrs)) ++
       "m"].
Proof.
  intros Hdelta Hfinal.
  rewrite (chpen_out delta final xd (chpen_params_nonempty delta Hdelta)).
  rewrite Hfinal, chpen_render_concat. reflexivity.
Qed.

Lemma chpen_writes_joined_params_witness :
  chpen {| pen_fg := Some 200; pen_bg := Some 9; pen_bold := Some true;
           pen_under := None; pen_italic := None; pen_reverse := None;
           pen_strike := None; pen_altfont := Some 3 |}
        bold_pen example_xd
  = mkRes tt example_xd [ESC ++ "[38;5;200;101;1;13m"].
Proof.
  apply chpen_writes_joined_params.
  - exists TICKIT_PEN_FG. reflexivity.
  - reflexivity.
Defined.

Lemma land_mask (v : Z) :
  0 <= v <= Int32.INT_MAX -> Int32.and v 2147483647 = v.
Proof.
  unfold Int32.INT_MAX, Int32.and. intros H.
  change 2147483647 with (Z.ones 31).
  rewrite Z.land_ones by lia. apply Z.mod_small.
  change (2 ^ 31) with 2147483648. lia.
Qed.

(* the rendering of the parameters chpen computes for a colour *)
Lemma chpen_colour_render (on_code off_code val : Z) :
  (on_code = 30 /\ off_code = 39) \/ (on_code = 40 /\ off_code = 49) ->
  Int32.in_int val ->
  chpen_render
    (if val <? 0 then [off_code]
     else if val <? 8 then [on_code +i val]
     else if val <? 16 then [on_code +i 60 +i val -i 8]
     else [Int32.or_u (on_code +i 8) 2147483648; Int32.or_u 5 2147483648; val])
  = sgr_colour on_code off_code val.
Proof.
  unfold Int32.in_int, Int32.INT_MIN, Int32.INT_MAX. intros Hcodes Hval.
  unfold sgr_colour.
  destruct Hcodes as [[-> ->] | [-> ->]];
    (destruct (Z.ltb_spec val 0); [| destruct (Z.ltb_spec val 8);
                                      [| destruct (Z.ltb_spec val 16)]]);
    cbn [chpen_render]; unfold fmt_param.
  all: try reflexivity.
  all: try (rewrite add_exact
              by (unfold Int32.in_int, Int32.INT_MIN, Int32.INT_MAX; lia);
            rewrite land_mask; [reflexivity | unfold Int32.INT_MAX; lia]).
  all: try (unfold Int32.sub;
            match goal with
            | |- context [?a +i 60] => change (a +i 60) with (a + 60)
            end;
            rewrite add_exact
              by (unfold Int32.in_int, Int32.INT_MIN, Int32.INT_MAX; lia);
            rewrite to_int_exact
              by (unfold Int32.in_int, Int32.INT_MIN, Int32.INT_MAX; lia);
            rewrite land_mask by (unfold Int32.INT_MAX; lia);
            f_equal; lia).
  all: rewrite (land_mask val) by (unfold Int32.INT_MAX; lia); reflexivity.
Qed.

(** X16: for a delta that sets only the foreground (or only the
    background) to a colour value, and a final pen that is not all
    default, chpen writes ESC[ {parameters} m with the parameters of the
    colour: the off code 39 (49) for a negative value, 30+value (40+value)
    for 0 to 7, 90+value-8 (100+value-8) for 8 to 15, and 38;5;value
    (48;5;value) from 16 on. *)
Theorem chpen_colour_encoding (val : Z) (final : TickitPen) (xd : XTermDriver) :
  Int32.in_int val ->
  tickit_pen_is_nondefault final = true ->
  out (chpen (fg_delta val) final xd) = [ESC ++ "[" ++ sgr_colour 30 39 val ++ "m"] /\
  out (chpen (bg_delta val) final xd) = [ESC ++ "[" ++ sgr_colour 40 49 val ++ "m"].
Proof.
  intros Hval Hfinal. split.
  - rewrite chpen_out
      by (apply chpen_params_nonempty; exists TICKIT_PEN_FG; reflexivity).
    rewrite Hfinal. cbn [out]. do 4 f_equal.
    change (flat_map (chpen_attr (fg_delta val)) pen_attrs)
      with (chpen_attr (fg_delta val) TICKIT_PEN_FG ++ [])%list.
    rewrite app_nil_r.
    apply (chpen_colour_render 30 39 val); [left; split; reflexivity | exact Hval].
  - rewrite chpen_out
      by (apply chpen_params_nonempty; exists TICKIT_PEN_BG; reflexivity).
    rewrite Hfinal. cbn [out]. do 4 f_equal.
    change (flat_map (chpen_attr (bg_delta val)) pen_attrs)
      with (chpen_attr (bg_delta val) TICKIT_PEN_BG ++ [])%list.
    rewrite app_nil_r.
    apply (chpen_colour_render 40 49 val); [right; split; reflexivity | exact Hval].
Qed.

Lemma chpen_colour_encoding_witness :
  out (chpen (fg_delta 200) bold_pen example_xd) = [ESC ++ "[38;5;200m"] /\
  out (chpen (bg_delta 200) bold_pen example_xd) = [ESC ++ "[48;5;200m"].
Proof.
  apply (chpen_colour_encoding 200 bold_pen example_xd).
  - unfold Int32.in_int, Int32.INT_MIN, Int32.INT_MAX. lia.
  - reflexivity.
Defined.

(** ** setctl_int and setctl_str *)

(** X17: whenever setctl_int returns 0 (control not handled) it has
    written nothing and left the instance unchanged. *)
Theorem setctl_int_decline_is_silent
    (ctl : TickitTermCtl) (value : Z) (xd : XTermDriver) :
  val (setctl_int ctl value xd) = 0 ->
  setctl_int ctl value xd = mkRes 0 xd [].
Proof.
  unfold setctl_int. rewrite run_bind_get.
  destruct ctl; try reflexivity; unfold bind;
    try match goal with |- context [Bool.eqb ?a ?b] => destruct (Bool.eqb a b) end;
    cbn [val ret]; discriminate.
Qed.

Lemma setctl_int_decline_is_silent_witness :
  setctl_int TICKIT_TERMCTL_TITLE_TEXT 1 example_xd = mkRes 0 example_xd [].
Proof.
  apply setctl_int_decline_is_silent. reflexivity.
Defined.

(** X18: after setctl_int the bit of the control (altscreen, cursorvis,
    cursorblink, mouse) holds whether the value was not 0, whether or not
    a sequence had to be written; no other bit and nothing else of the
    instance changes, and the cursor shape, the keypad and the controls
    not handled change nothing at all. *)
Theorem setctl_int_sets_own_bit (ctl : TickitTermCtl) (value : Z) (xd : XTermDriver) :
  st (setctl_int ctl value xd) = after_setctl_int ctl value xd.
Proof.
  destruct xd as [t [a v b m k] c].
  unfold setctl_int. rewrite run_bind_get.
  destruct ctl; unfold after_setctl_int, bind; cbn;
    try reflexivity.
  - destruct a, (value =? 0); reflexivity.
  - destruct v, (value =? 0); reflexivity.
  - destruct m, (value =? 0); reflexivity.
  - destruct k, (value =? 0); reflexivity.
Qed.

(** X19: the cursor blink is never deduplicated: two identical requests
    in a row write the sequence twice. *)
Theorem setctl_int_cursorblink_always_writes (value : Z) (xd : XTermDriver) :
  out (setctl_int_twice TICKIT_TERMCTL_CURSORBLINK value xd)
  = [seq_cursorblink value; seq_cursorblink value].
Proof.
  unfold setctl_int_twice, setctl_int, seq_cursorblink, bind. cbn.
  destruct (value =? 0); reflexivity.
Qed.

(** X20: the code of a cursor shape request follows the blink last
    requested: after setctl_int(CURSORBLINK, blink), the request
    setctl_int(CURSORSHAPE, shape) writes ESC[{2*shape-1} q when blink
    was not 0 and ESC[{2*shape} q when it was 0. *)
Theorem cursorshape_follows_blink (blink shape : Z) (xd : XTermDriver) :
  Int32.in_int (shape * 2) ->
  Int32.in_int (shape * 2 - 1) ->
  out ((setctl_int TICKIT_TERMCTL_CURSORBLINK blink ;;
        setctl_int TICKIT_TERMCTL_CURSORSHAPE shape) xd)
  = [seq_cursorblink blink;
     ESC ++ "[" ++ fmt_d (if blink =? 0 then shape * 2 else shape * 2 - 1) ++ " q"].
Proof.
  intros H2 H1.
  unfold setctl_int, seq_cursorblink, bind. cbn.
  unfold Int32.mul. rewrite (to_int_exact _ H2).
  destruct (blink =? 0); cbn.
  - rewrite add_exact by (rewrite Z.add_0_r; exact H2).
    rewrite Z.add_0_r. reflexivity.
  - rewrite add_exact by exact H1. reflexivity.
Qed.

Lemma cursorshape_follows_blink_witness :
  out ((setctl_int TICKIT_TERMCTL_CURSORBLINK 1 ;;
        setctl_int TICKIT_TERMCTL_CURSORSHAPE 2) example_xd)
  = [ESC ++ "[?12h"; ESC ++ "[3 q"].
Proof.
  apply (cursorshape_follows_blink 1 2 example_xd);
    unfold Int32.in_int, Int32.INT_MIN, Int32.INT_MAX; lia.
Defined.

(** X21: whenever setctl_str returns 0 (control not handled) it has
    written nothing; and it never changes the instance. *)
Theorem setctl_str_decline_is_silent
    (ctl : TickitTermCtl) (value : string) (xd : XTermDriver) :
  val (setctl_str ctl value xd) = 0 ->
  setctl_str ctl value xd = mkRes 0 xd [].
Proof.
  unfold setctl_str.
  destruct ctl; try reflexivity; unfold bind; cbn [val ret]; discriminate.
Qed.

Lemma setctl_str_decline_is_silent_witness :
  setctl_str TICKIT_TERMCTL_MOUSE "title" example_xd = mkRes 0 example_xd [].
Proof.
  apply setctl_str_decline_is_silent. reflexivity.
Defined.

(** X26: for the alternate screen, the cursor visibility, the mouse and
    the keypad, setctl_int writes nothing exactly when the bit of the
    control already holds whether the value is not 0. *)
Theorem setctl_int_writes_iff_bit_differs
    (ctl : TickitTermCtl) (value : Z) (xd : XTermDriver) :
  In ctl [TICKIT_TERMCTL_ALTSCREEN; TICKIT_TERMCTL_CURSORVIS;
          TICKIT_TERMCTL_MOUSE; TICKIT_TERMCTL_KEYPAD_APP] ->
  out (setctl_int ctl value xd) = [] <-> mode_bit ctl xd = negb (value =? 0).
Proof.
  intros Hin. destruct xd as [t [a v b m k] c].
  destruct Hin as [<- | [<- | [<- | [<- | []]]]];
    unfold setctl_int, bind, get; simpl.
  - destruct a, (value =? 0); simpl; split; intros; congruence.
  - destruct v, (value =? 0); simpl; split; intros; congruence.
  - destruct m, (value =? 0); simpl; split; intros; congruence.
  - destruct k, (value =? 0); simpl; split; intros; congruence.
Qed.

Lemma setctl_int_writes_iff_bit_differs_witness :
  out (setctl_int TICKIT_TERMCTL_KEYPAD_APP 0 example_xd) = [] <->
  mode_bit TICKIT_TERMCTL_KEYPAD_APP example_xd = negb (0 =? 0).
Proof.
  apply (setctl_int_writes_iff_bit_differs TICKIT_TERMCTL_KEYPAD_APP 0 example_xd).
  simpl. tauto.
Defined.

(** ** stop, gotkey and what a session leaves alone *)

(** X22: after stop the mouse and altscreen bits are clear and the
    cursorvis bit is set; the blink and keypad bits, the capabilities and
    the terminal are as before.  A second stop writes nothing, except
    the keypad sequence ESC> again when the keypad bit is set, since
    stop does not clear that bit. *)
Theorem stop_then_stop (xd : XTermDriver) :
  st (stop xd)
  = {| driver_tt := driver_tt xd;
       mode := {| altscreen := false; cursorvis := true;
                  cursorblink := cursorblink (mode xd); mouse := false;
                  keypad := keypad (mode xd) |};
       cap := cap xd |} /\
  out (stop (st (stop xd))) = (if keypad (mode xd) then [ESC ++ ">"] else []).
Proof.
  destruct xd as [t [a v b m k] c].
  destruct a, v, m, k; split; reflexivity.
Qed.

(** X23: gotkey never writes; it sets the slrm bit when the key is a
    mode report with '?', mode 69 and status 1 or 2, and otherwise
    leaves the instance exactly as it was. *)
Theorem gotkey_effect (key : TermKeyKey) (xd : XTermDriver) :
  gotkey key xd
  = mkRes tt (if mode_report_confirms key then set_slrm true xd else xd) [].
Proof.
  unfold gotkey, mode_report_confirms.
  destruct (is_modereport (key_type key)), (report_initial key =? QUESTION_MARK),
    (report_mode key =? 69), (report_value key =? 1), (report_value key =? 2);
    reflexivity.
Qed.

Lemma keeps_tt_setctl_int (ctl : TickitTermCtl) (value : Z) :
  keeps_tt (setctl_int ctl value).
Proof.
  intros xd. unfold setctl_int. rewrite run_bind_get.
  destruct ctl; try reflexivity; unfold bind;
    try match goal with |- context [Bool.eqb ?a ?b] => destruct (Bool.eqb a b) end;
    reflexivity.
Qed.

Lemma keeps_tt_stop : keeps_tt stop.
Proof.
  intros xd. destruct xd as [t [a v b m k] c].
  destruct a, v, m, k; reflexivity.
Qed.

Lemma exec_keeps_tt_and_bce (c : Call) (xd : XTermDriver) :
  driver_tt (st (exec c xd)) = driver_tt xd /\
  bce (cap (st (exec c xd))) = bce (cap xd).
Proof.
  assert (W : forall m : Drv unit, writes_only m ->
                driver_tt (st (m xd)) = driver_tt xd /\
                bce (cap (st (m xd))) = bce (cap xd)).
  { intros m Hm. rewrite Hm. split; reflexivity. }
  destruct c; unfold exec.
  - apply W, writes_only_start.
  - split; [apply keeps_tt_stop | rewrite keeps_cap_stop; reflexivity].
  - apply W, writes_only_print.
  - apply W, writes_only_goto_abs.
  - apply W, writes_only_move_rel.
  - apply W, writes_only_bind;
      [apply writes_only_scrollrect | intro; apply writes_only_ret].
  - apply W, writes_only_erasech.
  - apply W, writes_only_ttd_clear.
  - apply W, writes_only_chpen.
  - unfold bind. cbn [st ret]. split;
      [apply keeps_tt_setctl_int | rewrite keeps_cap_setctl_int; reflexivity].
  - apply W, writes_only_bind;
      [apply writes_only_setctl_str | intro; apply writes_only_ret].
  - unfold gotkey.
    destruct (is_modereport (key_type key)), (report_initial key =? QUESTION_MARK),
      (report_mode key =? 69), ((report_value key =? 1) || (report_value key =? 2));
      split; reflexivity.
Qed.

(** X24: no call of a session changes the terminal object the instance
    points to or the bce capability: after every session both are what
    they were at its start. *)
Theorem session_keeps_tt_and_bce (calls : list Call) (xd : XTermDriver) :
  driver_tt (st (session calls xd)) = driver_tt xd /\
  bce (cap (st (session calls xd))) = bce (cap xd).
Proof.
  revert xd. induction calls as [| c rest IH]; intros xd.
  - split; reflexivity.
  - cbn [session]. unfold bind. cbn [st].
    destruct (IH (st (exec c xd))) as [Ht Hb].
    destruct (exec_keeps_tt_and_bce c xd) as [Ht' Hb'].
    rewrite Ht, Hb. split; assumption.
Qed.

(** X25: only setctl_int and stop change the mode bits: every other
    call leaves all five as they were. *)
Theorem exec_keeps_mode (c : Call) (xd : XTermDriver) :
  owns_mode c = false ->
  mode (st (exec c xd)) = mode xd.
Proof.
  assert (W : forall m : Drv unit, writes_only m -> mode (st (m xd)) = mode xd).
  { intros m Hm. rewrite Hm. reflexivity. }
  destruct c; cbn [owns_mode]; intros Howns; try discriminate; unfold exec.
  - apply W, writes_only_start.
  - apply W, writes_only_print.
  - apply W, writes_only_goto_abs.
  - apply W, writes_only_move_rel.
  - apply W, writes_only_bind;
      [apply writes_only_scrollrect | intro; apply writes_only_ret].
  - apply W, writes_only_erasech.
  - apply W, writes_only_ttd_clear.
  - apply W, writes_only_chpen.
  - apply W, writes_only_bind;
      [apply writes_only_setctl_str | intro; apply writes_only_ret].
  - unfold gotkey.
    destruct (is_modereport (key_type key)), (report_initial key =? QUESTION_MARK),
      (report_mode key =? 69), ((report_value key =? 1) || (report_value key =? 2));
      reflexivity.
Qed.

Lemma exec_keeps_mode_witness :
  mode (st (exec (call_gotkey example_report) example_xd)) = mode example_xd.
Proof.
  apply exec_keeps_mode. reflexivity.
Defined.
